(** * Library catalog service: checkout engine, trending and recommendations

    A shallow embedding of the Flask/SQLite routes of the library
    application (app/database.py, app/routes/checkouts.py, users.py,
    books.py and homepage.py) together with the properties of the
    checkout life cycle, the ledger and the derived views.

    Tables are lists of rows in rowid order.  A [SELECT ... WHERE] is a
    [filter], [fetchone] is the head of the result, [LIMIT n] is [take n],
    an [UPDATE ... WHERE] maps over the rows and a [DELETE ... WHERE]
    filters them out.  Every route returns its HTTP response together with
    the committed database. *)

From stdpp Require Import base option list strings gmap sorting.
From Stdlib Require Import ZArith Lia.

Local Open Scope Z_scope.

(** ** Time *)

(** A Python [datetime] is counted in microseconds.  The text form
    ['%Y-%m-%d %H:%M:%S'] that the routes store and compare has one-second
    resolution and orders like the instant it denotes, so a stored
    timestamp is the number of whole seconds. *)
Definition datetime := Z.
Definition timestamp := Z.

Definition timedelta (days : Z) : Z := days * 86400 * 1000000.

Definition strftime (d : datetime) : timestamp := d `div` 1000000.

(** ** Schema (app/database.py, [init_db]) *)

Module User.
Record t := mk {
  user_id : Z;
  username : string;
  password : string;
  created_at : timestamp
}.
End User.

Module Book.
Record t := mk {
  book_id : Z;
  isbn : option string;
  title : string;
  author : string;
  year_published : option Z;
  genre : option string;
  image_url : option string;
  is_booked : option Z;
  booked_by_user_id : option Z;
  due_date : option timestamp
}.

#[global] Instance eq_dec : EqDecision t.
Proof. solve_decision. Defined.
End Book.

Module Checkout.
Record t := mk {
  checkout_id : Z;
  book_id : Z;
  user_id : Z;
  checkout_date : timestamp;
  return_date : option timestamp;
  due_date : timestamp;
  is_returned : Z
}.
End Checkout.

(** The database: the three tables and the [sqlite_sequence] counter that
    [AUTOINCREMENT] keeps for the checkouts table. *)
Record db := mkdb {
  users : list User.t;
  books : list Book.t;
  checkouts : list Checkout.t;
  seq_checkouts : Z
}.

(** [INTEGER PRIMARY KEY AUTOINCREMENT]: the new rowid is one more than the
    largest rowid that is or ever was in the table. *)
Definition max_rowid (ids : list Z) : Z := foldr Z.max 0 ids.

Definition next_rowid (seq : Z) (ids : list Z) : Z :=
  Z.max seq (max_rowid ids) + 1.

(** [SELECT ... WHERE user_id = ?] followed by [fetchone]. *)
Definition select_user (uid : Z) (d : db) : option User.t :=
  head (filter (λ u, User.user_id u = uid) (users d)).

Definition select_book (bid : Z) (d : db) : option Book.t :=
  head (filter (λ b, Book.book_id b = bid) (books d)).

Definition select_checkout (cid : Z) (d : db) : option Checkout.t :=
  head (filter (λ c, Checkout.checkout_id c = cid) (checkouts d)).

(** [UPDATE books SET ... WHERE book_id = ?]. *)
Definition update_books (bid : Z) (f : Book.t → Book.t)
    (bs : list Book.t) : list Book.t :=
  (λ b, if decide (Book.book_id b = bid) then f b else b) <$> bs.

(** [UPDATE checkouts SET ... WHERE checkout_id = ?]. *)
Definition update_checkouts (cid : Z) (f : Checkout.t → Checkout.t)
    (cs : list Checkout.t) : list Checkout.t :=
  (λ c, if decide (Checkout.checkout_id c = cid) then f c else c) <$> cs.

(** ** app/routes/checkouts.py *)

Module Checkouts.

(** The JSON body of [POST /api/checkouts]; [None] is a missing key. *)
Record request := mk_request {
  req_book_id : option Z;
  req_user_id : option Z
}.

Inductive response :=
| Created (checkout_id book_id user_id : Z) (due_date : timestamp)
| Returned (checkout_id book_id : Z) (return_date : timestamp)
| BadRequest (error : string)
| NotFound (error : string)
| Conflict (error message : string) (due_date : option timestamp).

Definition status_code (r : response) : Z :=
  match r with
  | Created _ _ _ _ => 201
  | Returned _ _ _ => 200
  | BadRequest _ => 400
  | NotFound _ => 404
  | Conflict _ _ _ => 409
  end.

Definition set_checked_out (user_id : Z) (due : timestamp)
    (b : Book.t) : Book.t :=
  Book.mk (Book.book_id b) (Book.isbn b) (Book.title b) (Book.author b)
    (Book.year_published b) (Book.genre b) (Book.image_url b)
    (Some 1) (Some user_id) (Some due).

Definition set_available (b : Book.t) : Book.t :=
  Book.mk (Book.book_id b) (Book.isbn b) (Book.title b) (Book.author b)
    (Book.year_published b) (Book.genre b) (Book.image_url b)
    (Some 0) None None.

Definition set_returned (return_date : timestamp)
    (c : Checkout.t) : Checkout.t :=
  Checkout.mk (Checkout.checkout_id c) (Checkout.book_id c)
    (Checkout.user_id c) (Checkout.checkout_date c) (Some return_date)
    (Checkout.due_date c) 1.

(** [checkout_book].  [now] is the value of [datetime.now()];
    [current_timestamp] is what SQLite's [CURRENT_TIMESTAMP] default
    stores in [checkout_date] for the inserted row. *)
Definition checkout_book (now : datetime) (current_timestamp : timestamp)
    (data : option request) (d : db) : response * db :=
  match data with
  | None => (BadRequest "book_id and user_id are required", d)
  | Some data =>
    match req_book_id data, req_user_id data with
    | Some book_id, Some user_id =>
      match select_user user_id d with
      | None => (NotFound "User not found", d)
      | Some _ =>
        match select_book book_id d with
        | None => (NotFound "Book not found", d)
        | Some book =>
          if decide (Book.is_booked book = Some 1) then
            (Conflict "Book is not available"
               "This book is currently checked out by another user"
               (Book.due_date book), d)
          else
            let due_date := now + timedelta 7 in
            let due_date_str := strftime due_date in
            let books' :=
              update_books book_id (set_checked_out user_id due_date_str)
                (books d) in
            let checkout_id :=
              next_rowid (seq_checkouts d)
                (Checkout.checkout_id <$> checkouts d) in
            let row :=
              Checkout.mk checkout_id book_id user_id current_timestamp
                None due_date_str 0 in
            (Created checkout_id book_id user_id due_date_str,
             mkdb (users d) books' (checkouts d ++ [row]) checkout_id)
        end
      end
    | _, _ => (BadRequest "book_id and user_id are required", d)
    end
  end.

(** [return_book]: [DELETE /api/checkouts/<checkout_id>]. *)
Definition return_book (now : datetime) (checkout_id : Z)
    (d : db) : response * db :=
  match select_checkout checkout_id d with
  | None => (NotFound "Checkout not found", d)
  | Some checkout =>
    if decide (Checkout.is_returned checkout = 1) then
      (BadRequest "Book has already been returned", d)
    else
      let book_id := Checkout.book_id checkout in
      let return_date := strftime now in
      let checkouts' :=
        update_checkouts checkout_id (set_returned return_date)
          (checkouts d) in
      let books' := update_books book_id set_available (books d) in
      (Returned checkout_id book_id return_date,
       mkdb (users d) books' checkouts' (seq_checkouts d))
  end.

End Checkouts.

(** ** app/routes/users.py *)

Module Users.

Inductive response :=
| Deleted
| NotFound (error : string).

Definition status_code (r : response) : Z :=
  match r with
  | Deleted => 200
  | NotFound _ => 404
  end.

(** [delete_user].  The connection of [get_db_connection] never turns
    SQLite's foreign-key enforcement on, so the [DELETE] touches the
    users table only. *)
Definition delete_user (user_id : Z) (d : db) : response * db :=
  match select_user user_id d with
  | None => (NotFound "User not found", d)
  | Some _ =>
    (Deleted,
     mkdb (filter (λ u, User.user_id u ≠ user_id) (users d))
       (books d) (checkouts d) (seq_checkouts d))
  end.

End Users.

(** ** app/routes/books.py *)

Module Books.

(** The JSON body of [PATCH /api/books/<book_id>].  For each allowed
    field the outer [None] is a missing key and [Some None] is an
    explicit JSON null. *)
Record patch := mk_patch {
  patch_is_booked : option (option Z);
  patch_booked_by_user_id : option (option Z);
  patch_due_date : option (option timestamp)
}.

Inductive response :=
| Updated (book : option Book.t)
| BadRequest (error : string)
| NotFound (error : string).

Definition apply_patch (data : patch) (b : Book.t) : Book.t :=
  Book.mk (Book.book_id b) (Book.isbn b) (Book.title b) (Book.author b)
    (Book.year_published b) (Book.genre b) (Book.image_url b)
    (default (Book.is_booked b) (patch_is_booked data))
    (default (Book.booked_by_user_id b) (patch_booked_by_user_id data))
    (default (Book.due_date b) (patch_due_date data)).

Definition update_book (book_id : Z) (data : option patch)
    (d : db) : response * db :=
  match data with
  | None => (BadRequest "No data provided", d)
  | Some data =>
    match select_book book_id d with
    | None => (NotFound "Book not found", d)
    | Some _ =>
      match patch_is_booked data, patch_booked_by_user_id data,
            patch_due_date data with
      | None, None, None => (BadRequest "No valid fields to update", d)
      | _, _, _ =>
        let d' :=
          mkdb (users d) (update_books book_id (apply_patch data) (books d))
            (checkouts d) (seq_checkouts d) in
        (Updated (select_book book_id d'), d')
      end
    end
  end.

End Books.

(** ** SQL and Python helpers used by app/routes/homepage.py *)

(** [ORDER BY key DESC]: a stable insertion sort; rows with equal keys keep
    the order in which the query produced them. *)
Fixpoint insert_desc {A} (key : A → Z) (x : A) (l : list A) : list A :=
  match l with
  | [] => [x]
  | y :: r =>
    if decide (key x < key y) then y :: insert_desc key x r else x :: y :: r
  end.

Definition order_by_desc {A} (key : A → Z) (l : list A) : list A :=
  foldr (insert_desc key) [] l.

(** Rows whose key was not produced before, in the order of their first
    occurrence; [prev] lists the keys already produced. *)
Fixpoint first_occurrences {A K} `{EqDecision K} (key : A → K)
    (prev : list K) (l : list A) : list A :=
  match l with
  | [] => []
  | x :: r =>
    if decide (key x ∈ prev) then first_occurrences key prev r
    else x :: first_occurrences key (key x :: prev) r
  end.

(** [SELECT DISTINCT]. *)
Definition distinct {A} `{EqDecision A} (l : list A) : list A :=
  first_occurrences id [] l.

(** The three "Remove duplicates" loops of [get_user_recommendations]: a
    [seen_ids] set and a result list that grows at its end. *)
Definition dedup_step (st : gset Z * list Book.t) (book : Book.t)
    : gset Z * list Book.t :=
  if decide (Book.book_id book ∈ st.1) then st
  else ({[Book.book_id book]} ∪ st.1, st.2 ++ [book]).

Definition remove_duplicates (bs : list Book.t) : list Book.t :=
  (foldl dedup_step (∅, []) bs).2.

(** [for k in keys: acc.extend(query(k))]. *)
Definition extend_each {K A} (query : K → list A) (keys : list K) : list A :=
  foldl (λ acc k, acc ++ query k) [] keys.

(** ** app/routes/homepage.py *)

Module Homepage.

(** *** [get_trending_books] *)

(** [FROM books b LEFT JOIN checkouts c ON b.book_id = c.book_id]. *)
Definition left_join (bs : list Book.t) (cs : list Checkout.t)
    : list (Book.t * option Checkout.t) :=
  b ← bs;
  match filter (λ c, Checkout.book_id c = Book.book_id b) cs with
  | [] => [(b, None)]
  | m => (λ c, (b, Some c)) <$> m
  end.

(** [WHERE c.checkout_date >= ? OR c.checkout_date IS NULL]. *)
Definition in_window (seven_days_ago : timestamp)
    (row : Book.t * option Checkout.t) : Prop :=
  match row.2 with
  | Some c => seven_days_ago ≤ Checkout.checkout_date c
  | None => True
  end.

#[global] Instance in_window_dec t row : Decision (in_window t row).
Proof. unfold in_window. destruct (row.2); apply _. Defined.

(** [COUNT(c.checkout_id)] over one group: the rows whose checkout side
    is not null. *)
Definition count_checkouts (g : list (Book.t * option Checkout.t)) : Z :=
  Z.of_nat (length (filter (λ r, is_Some r.2) g)).

(** [GROUP BY b.book_id] with the aggregate: one output row per book id
    that still has a row after the [WHERE]. *)
Definition group_by_book (rows : list (Book.t * option Checkout.t))
    : list (Book.t * Z) :=
  (λ r, (r.1,
         count_checkouts
           (filter (λ r', Book.book_id r'.1 = Book.book_id r.1) rows)))
  <$> first_occurrences (λ r, Book.book_id r.1) [] rows.

(** The ranking before [LIMIT 5]. *)
Definition trending_ranking (now : datetime) (d : db)
    : list (Book.t * Z) :=
  let seven_days_ago := strftime (now - timedelta 7) in
  order_by_desc snd
    (group_by_book
       (filter (in_window seven_days_ago)
          (left_join (books d) (checkouts d)))).

Definition get_trending_books (now : datetime) (d : db)
    : list (Book.t * Z) :=
  take 5 (trending_ranking now d).

(** *** [get_user_recommendations] *)

(** A row of the seed query:
    [SELECT c.book_id, b.author, b.year_published, b.genre]. *)
Record recent := mk_recent {
  book_id : Z;
  author : string;
  year_published : option Z;
  genre : option string
}.

(** The returned dictionary; [message] is present only in the
    no-history answer and [based_on_books] only in the other one. *)
Record recommendations := mk_recommendations {
  by_author : list Book.t;
  by_year : list Book.t;
  similar_users : list Book.t;
  message : option string;
  based_on_books : option (list Z)
}.

(** [FROM checkouts c JOIN books b ON c.book_id = b.book_id]. *)
Definition join (cs : list Checkout.t) (bs : list Book.t)
    : list (Checkout.t * Book.t) :=
  c ← cs;
  (λ b, (c, b)) <$> filter (λ b, Book.book_id b = Checkout.book_id c) bs.

(** The user's last 3 checkouts. *)
Definition recent_checkouts (user_id : Z) (d : db) : list recent :=
  (λ r, mk_recent (Checkout.book_id r.1) (Book.author r.2)
          (Book.year_published r.2) (Book.genre r.2))
  <$> take 3
        (order_by_desc (λ r, Checkout.checkout_date r.1)
           (filter (λ r, Checkout.user_id r.1 = user_id)
              (join (checkouts d) (books d)))).

(** [SELECT * FROM books WHERE author = ? AND book_id NOT IN (...)
    LIMIT 5]. *)
Definition books_by_author (recent_book_ids : list Z) (d : db)
    (a : string) : list Book.t :=
  take 5
    (filter (λ b, Book.author b = a ∧ Book.book_id b ∉ recent_book_ids)
       (books d)).

(** [SELECT * FROM books WHERE year_published = ? AND book_id NOT IN
    (...) LIMIT 5]. *)
Definition books_by_year (recent_book_ids : list Z) (d : db)
    (y : Z) : list Book.t :=
  take 5
    (filter (λ b, Book.year_published b = Some y
                  ∧ Book.book_id b ∉ recent_book_ids)
       (books d)).

(** [SELECT DISTINCT user_id FROM checkouts WHERE book_id IN (...) AND
    user_id != ?]. *)
Definition find_similar_users (recent_book_ids : list Z) (user_id : Z)
    (d : db) : list Z :=
  distinct
    (Checkout.user_id
     <$> filter (λ c, Checkout.book_id c ∈ recent_book_ids
                      ∧ Checkout.user_id c ≠ user_id)
           (checkouts d)).

(** [SELECT DISTINCT b.* FROM checkouts c JOIN books b ... WHERE
    c.user_id = ? AND c.book_id NOT IN (...) LIMIT 3]. *)
Definition books_of_similar_user (recent_book_ids : list Z) (d : db)
    (similar_user_id : Z) : list Book.t :=
  take 3
    (distinct
       (snd
        <$> filter (λ r, Checkout.user_id r.1 = similar_user_id
                         ∧ Checkout.book_id r.1 ∉ recent_book_ids)
              (join (checkouts d) (books d)))).

Section Recommend.

(** [list(set(xs))]: Python fixes neither the order of a set of
    strings nor that of a set of integers, so the enumeration is a
    parameter of the model. *)
Context (list_set : ∀ A, EqDecision A → list A → list A).

Definition recent_authors (rc : list recent) : list string :=
  list_set string _ (author <$> filter (λ c, author c ≠ "") rc).

Definition recent_years (rc : list recent) : list Z :=
  list_set Z _
    (omap year_published
       (filter (λ c, year_published c ≠ None
                     ∧ year_published c ≠ Some 0) rc)).

Definition get_user_recommendations (user_id : Z) (d : db)
    : recommendations :=
  let rc := recent_checkouts user_id d in
  match rc with
  | [] =>
    mk_recommendations [] [] []
      (Some "No checkout history found. Check out some books to get recommendations!")
      None
  | _ =>
    let recent_book_ids := book_id <$> rc in
    let by_author :=
      extend_each (books_by_author recent_book_ids d)
        (recent_authors rc) in
    let by_year :=
      extend_each (books_by_year recent_book_ids d) (recent_years rc) in
    let similar_users := find_similar_users recent_book_ids user_id d in
    let similar_users_books :=
      extend_each (books_of_similar_user recent_book_ids d)
        (take 5 similar_users) in
    mk_recommendations
      (take 10 (remove_duplicates by_author))
      (take 10 (remove_duplicates by_year))
      (take 10 (remove_duplicates similar_users_books))
      None
      (Some (book_id <$> rc))
  end.

End Recommend.

End Homepage.

(** ** Operations, invariants and reachable states *)

(** One HTTP request that writes the store. *)
Inductive op :=
| CheckoutBook (now : datetime) (current_timestamp : timestamp)
    (data : option Checkouts.request)
| ReturnBook (now : datetime) (checkout_id : Z)
| DeleteUser (user_id : Z)
| UpdateBook (book_id : Z) (data : option Books.patch).

Definition step (d : db) (o : op) : db :=
  match o with
  | CheckoutBook now cts data => (Checkouts.checkout_book now cts data d).2
  | ReturnBook now cid => (Checkouts.return_book now cid d).2
  | DeleteUser uid => (Users.delete_user uid d).2
  | UpdateBook bid data => (Books.update_book bid data d).2
  end.

Definition run (ops : list op) (d : db) : db := foldl step d ops.

(** The requests served by the Availability & Checkout Engine. *)
Definition engine_op (o : op) : Prop :=
  match o with
  | CheckoutBook _ _ _ | ReturnBook _ _ => True
  | _ => False
  end.



(** A not-returned checkout row of book [bid]. *)
Definition active (bid : Z) (c : Checkout.t) : Prop :=
  Checkout.book_id c = bid ∧ Checkout.is_returned c = 0.

Definition active_count (bid : Z) (d : db) : nat :=
  length (filter (active bid) (checkouts d)).

Definition ledger_invariant (d : db) : Prop :=
  ∀ bid, (active_count bid d ≤ 1)%nat.

(** A consistent store: the ledger invariant holds, [is_returned] is a
    0/1 flag, and a book with a not-returned checkout is marked booked. *)
Definition consistent (d : db) : Prop :=
  ledger_invariant d
  ∧ (∀ c, c ∈ checkouts d →
       Checkout.is_returned c = 0 ∨ Checkout.is_returned c = 1)
  ∧ (∀ c b, c ∈ checkouts d → Checkout.is_returned c = 0 →
       b ∈ books d → Book.book_id b = Checkout.book_id c →
       Book.is_booked b = Some 1).

(** The [by_author] list in the words of the specification: per distinct
    seed author up to 5 books by that author that are not seed books,
    concatenated, first occurrences only, at most 10. *)
Definition spec_by_author (seed_ids : list Z) (authors : list string)
    (d : db) : list Book.t :=
  take 10
    (first_occurrences Book.book_id []
       (a ← authors;
        take 5
          (filter (λ b, Book.author b = a ∧ Book.book_id b ∉ seed_ids)
             (books d)))).

(** ** Sample data *)

(** One enumeration of a Python set: first occurrences. *)
Definition first_seen_set (A : Type) (H : EqDecision A) (l : list A)
    : list A :=
  distinct l.

Definition alice : User.t := User.mk 1 "alice" "pass1" 0.
Definition bob : User.t := User.mk 2 "bob" "pass2" 0.

Definition book_1984 : Book.t :=
  Book.mk 1 (Some "9780451524935") "1984" "Orwell" (Some 1949)
    None None (Some 0) None None.
Definition animal_farm : Book.t :=
  Book.mk 2 (Some "9780451526342") "Animal Farm" "Orwell" (Some 1945)
    None None (Some 0) None None.
Definition burmese_days : Book.t :=
  Book.mk 3 None "Burmese Days" "Orwell" (Some 1934)
    None None (Some 0) None None.
Definition the_plague : Book.t :=
  Book.mk 4 None "The Plague" "Camus" (Some 1947)
    None None (Some 0) None None.

Definition library : db :=
  mkdb [alice; bob] [book_1984; animal_farm; burmese_days; the_plague] [] 0.

Definition day : Z := 86400.
Definition usec : Z := 1000000.

(** A store whose only checkout of "1984" is eight days old. *)
Definition stale_checkout : Checkout.t :=
  Checkout.mk 1 1 1 (100 * day) (Some (101 * day)) (107 * day) 1.

Definition stale_library : db :=
  mkdb [alice; bob] [book_1984; animal_farm] [stale_checkout] 1.

(** Alice has checked out "1984" and "Animal Farm". *)
Definition orwell_reader : db :=
  mkdb [alice; bob] [book_1984; animal_farm; burmese_days; the_plague]
    [Checkout.mk 1 1 1 (100 * day) (Some (101 * day)) (107 * day) 1;
     Checkout.mk 2 2 1 (102 * day) (Some (103 * day)) (109 * day) 1] 2.


(** Two competing checkouts of "1984", its return and a new checkout. *)
Definition engine_ops : list op :=
  [CheckoutBook (100 * day * usec) (100 * day)
     (Some (Checkouts.mk_request (Some 1) (Some 1)));
   CheckoutBook (101 * day * usec) (101 * day)
     (Some (Checkouts.mk_request (Some 1) (Some 2)));
   ReturnBook (102 * day * usec) 1;
   ReturnBook (102 * day * usec) 1;
   CheckoutBook (103 * day * usec) (103 * day)
     (Some (Checkouts.mk_request (Some 1) (Some 2)))].

(** ** app/routes/checkouts.py: the listing routes *)

Module Listing.

(** A row of [SELECT c.*, b.title, b.author, b.image_url]. *)
Record listed := mk_listed {
  checkout : Checkout.t;
  title : string;
  author : string;
  image_url : option string
}.

(** A row of [SELECT c.*, b.title, b.author, b.year_published, b.genre,
    b.image_url]. *)
Record history := mk_history {
  h_checkout : Checkout.t;
  h_title : string;
  h_author : string;
  h_year_published : option Z;
  h_genre : option string;
  h_image_url : option string
}.

Definition to_listed (r : Checkout.t * Book.t) : listed :=
  mk_listed r.1 (Book.title r.2) (Book.author r.2) (Book.image_url r.2).

Definition to_history (r : Checkout.t * Book.t) : history :=
  mk_history r.1 (Book.title r.2) (Book.author r.2)
    (Book.year_published r.2) (Book.genre r.2) (Book.image_url r.2).

(** The [active] query argument after [active.lower()]: ['true'],
    ['false'], or anything else (also a missing argument). *)
Inductive active_arg := ActiveTrue | ActiveFalse | ActiveOther.

(** [if user_id: query += ' AND c.user_id = ?']; a missing, unparsable
    or zero [user_id] adds no condition. *)
Definition where_user (user_id : option Z) (c : Checkout.t) : Prop :=
  match user_id with
  | Some u => if decide (u = 0) then True else Checkout.user_id c = u
  | None => True
  end.

#[global] Instance where_user_dec u c : Decision (where_user u c).
Proof.
  unfold where_user. destruct u as [u|]; [|apply _].
  destruct (decide (u = 0)); apply _.
Defined.

Definition where_active (active : active_arg) (c : Checkout.t) : Prop :=
  match active with
  | ActiveTrue => Checkout.is_returned c = 0
  | ActiveFalse => Checkout.is_returned c = 1
  | ActiveOther => True
  end.

#[global] Instance where_active_dec a c : Decision (where_active a c).
Proof. unfold where_active. destruct a; apply _. Defined.

(** The joined rows that [get_checkouts] selects, in answer order. *)
Definition select_checkouts (user_id : option Z) (active : active_arg)
    (d : db) : list (Checkout.t * Book.t) :=
  order_by_desc (λ r, Checkout.checkout_date r.1)
    (filter (λ r, where_user user_id r.1 ∧ where_active active r.1)
       (Homepage.join (checkouts d) (books d))).

(** [get_checkouts]: the rows and the [count] field. *)
Definition get_checkouts (user_id : option Z) (active : active_arg)
    (d : db) : list listed * Z :=
  let rows := select_checkouts user_id active d in
  (to_listed <$> rows, Z.of_nat (length rows)).

(** [get_checkout]: the row, or [None] for the 404 answer. *)
Definition get_checkout (checkout_id : Z) (d : db) : option listed :=
  to_listed
  <$> head (filter (λ r, Checkout.checkout_id r.1 = checkout_id)
              (Homepage.join (checkouts d) (books d))).

(** The joined rows of [get_user_checkout_history], in answer order. *)
Definition select_history (user_id : Z) (d : db)
    : list (Checkout.t * Book.t) :=
  order_by_desc (λ r, Checkout.checkout_date r.1)
    (filter (λ r, Checkout.user_id r.1 = user_id)
       (Homepage.join (checkouts d) (books d))).

(** [get_user_checkout_history]: the rows and the [total] field. *)
Definition get_user_checkout_history (user_id : Z) (d : db)
    : list history * Z :=
  let rows := select_history user_id d in
  (to_history <$> rows, Z.of_nat (length rows)).

End Listing.

(** ** app/routes/users.py: registration, login and update *)

Module Accounts.

(** The JSON body [{"username": ..., "password": ...}].  The outer [None]
    of a field is a missing key and [Some None] a JSON null. *)
Record credentials := mk_credentials {
  cred_username : option (option string);
  cred_password : option (option string)
}.

Inductive response :=
| Registered (user_id : Z) (username : string)
| LoggedIn (user_id : Z) (username : string)
| UserInfo (user_id : Z) (username : string) (created_at : timestamp)
| UserUpdated (user_id : Z) (username : string)
| BadRequest (error : string)
| Unauthorized (error : string)
| NotFound (error : string)
| Conflict (error : string)
| ServerError.

Definition status_code (r : response) : Z :=
  match r with
  | Registered _ _ => 201
  | LoggedIn _ _ | UserInfo _ _ _ | UserUpdated _ _ => 200
  | BadRequest _ => 400
  | Unauthorized _ => 401
  | NotFound _ => 404
  | Conflict _ => 409
  | ServerError => 500
  end.

(** [register_user].  The state is the database with the
    [sqlite_sequence] counter of the users table; [current_timestamp] is
    the [created_at] default.  A null username or password violates
    [NOT NULL], which is not the [UNIQUE] failure and so answers 500; a
    taken username violates [UNIQUE] and answers 409. *)
Definition register_user (current_timestamp : timestamp)
    (data : option credentials) (s : db * Z) : response * (db * Z) :=
  match data with
  | None => (BadRequest "Username and password are required", s)
  | Some data =>
    match cred_username data, cred_password data with
    | Some username, Some password =>
      match username, password with
      | Some username, Some password =>
        if decide (username ∈ User.username <$> users s.1) then
          (Conflict "Username already exists", s)
        else
          let user_id := next_rowid s.2 (User.user_id <$> users s.1) in
          (Registered user_id username,
           (mkdb
              (users s.1
               ++ [User.mk user_id username password current_timestamp])
              (books s.1) (checkouts s.1) (seq_checkouts s.1),
            user_id))
      | _, _ => (ServerError, s)
      end
    | _, _ => (BadRequest "Username and password are required", s)
    end
  end.

(** [login_user]; a null never equals a stored column. *)
Definition login_user (data : option credentials) (d : db) : response :=
  match data with
  | None => BadRequest "Username and password are required"
  | Some data =>
    match cred_username data, cred_password data with
    | Some username, Some password =>
      match
        head (filter (λ u, Some (User.username u) = username
                           ∧ Some (User.password u) = password) (users d))
      with
      | Some user => LoggedIn (User.user_id user) (User.username user)
      | None => Unauthorized "Invalid username or password"
      end
    | _, _ => BadRequest "Username and password are required"
    end
  end.

(** [get_user]. *)
Definition get_user (user_id : Z) (d : db) : response :=
  match select_user user_id d with
  | Some user =>
    UserInfo (User.user_id user) (User.username user) (User.created_at user)
  | None => NotFound "User not found"
  end.

Definition set_credentials (username password : string)
    (u : User.t) : User.t :=
  User.mk (User.user_id u) username password (User.created_at u).

(** [update_user]: the body is checked before the user is looked up; the
    [UPDATE] fails on [UNIQUE] when another row holds the username. *)
Definition update_user (user_id : Z) (data : option credentials)
    (d : db) : response * db :=
  match data with
  | None => (BadRequest "Username and password are required", d)
  | Some data =>
    match cred_username data, cred_password data with
    | Some username, Some password =>
      match select_user user_id d with
      | None => (NotFound "User not found", d)
      | Some _ =>
        match username, password with
        | Some username, Some password =>
          if decide (username
                     ∈ User.username
                       <$> filter (λ u, User.user_id u ≠ user_id) (users d))
          then (Conflict "Username already exists", d)
          else
            (UserUpdated user_id username,
             mkdb
               ((λ u, if decide (User.user_id u = user_id)
                      then set_credentials username password u else u)
                <$> users d)
               (books d) (checkouts d) (seq_checkouts d))
        | _, _ => (ServerError, d)
        end
      end
    | _, _ => (BadRequest "Username and password are required", d)
    end
  end.

End Accounts.

(** ** app/routes/books.py: the filter options *)

Module Filters.

(** [ORDER BY] on a text column: ascending in SQLite's default [BINARY]
    collation, which compares the bytes of the two strings; a stable
    insertion sort. *)
Fixpoint insert_asc (x : string) (l : list string) : list string :=
  match l with
  | [] => [x]
  | y :: r => if String.ltb y x then y :: insert_asc x r else x :: y :: r
  end.

Definition order_by_text (l : list string) : list string :=
  foldr insert_asc [] l.

Record options := mk_options {
  authors : list string;
  years : list Z;
  genres : list string
}.

(** [get_filter_options]: the distinct authors (at most 100), the distinct
    non-null years, newest first, and the distinct non-null genres. *)
Definition get_filter_options (d : db) : options :=
  mk_options
    (take 100 (order_by_text (distinct (Book.author <$> books d))))
    (order_by_desc id (distinct (omap Book.year_published (books d))))
    (order_by_text (distinct (omap Book.genre (books d)))).

End Filters.

(** ** Further invariants *)

(** The columns of a checkout row that no route ever rewrites. *)
Definition ledger_entry (c : Checkout.t) : Z * Z * Z * timestamp * timestamp :=
  (Checkout.checkout_id c, Checkout.book_id c, Checkout.user_id c,
   Checkout.checkout_date c, Checkout.due_date c).

(** The catalog columns of a book row. *)
Definition catalog_entry (b : Book.t)
    : Z * option string * string * string * option Z * option string
      * option string :=
  (Book.book_id b, Book.isbn b, Book.title b, Book.author b,
   Book.year_published b, Book.genre b, Book.image_url b).

(** Primary keys are unique and every checkout references a book. *)
Definition keyed (d : db) : Prop :=
  NoDup (Book.book_id <$> books d)
  ∧ NoDup (Checkout.checkout_id <$> checkouts d)
  ∧ ∀ c, c ∈ checkouts d → Checkout.book_id c ∈ Book.book_id <$> books d.

(** A booked book has a not-returned checkout that names its holder and
    its due date. *)
Definition booked_by_ledger (d : db) : Prop :=
  ∀ b, b ∈ books d → Book.is_booked b = Some 1 →
    ∃ c, c ∈ checkouts d ∧ active (Book.book_id b) c
         ∧ Book.booked_by_user_id b = Some (Checkout.user_id c)
         ∧ Book.due_date b = Some (Checkout.due_date c).

(** User ids and usernames are unique. *)
Definition accounts_ok (d : db) : Prop :=
  NoDup (User.user_id <$> users d) ∧ NoDup (User.username <$> users d).

(** The HTTP status of a write request on a store. *)
Definition op_status (d : db) (o : op) : Z :=
  match o with
  | CheckoutBook now cts data =>
    Checkouts.status_code (Checkouts.checkout_book now cts data d).1
  | ReturnBook now cid =>
    Checkouts.status_code (Checkouts.return_book now cid d).1
  | DeleteUser uid => Users.status_code (Users.delete_user uid d).1
  | UpdateBook bid data =>
    match (Books.update_book bid data d).1 with
    | Books.Updated _ => 200
    | Books.BadRequest _ => 400
    | Books.NotFound _ => 404
    end
  end.

(** A store with a checkout of "1984" by Alice that is still out. *)
Definition lending_library : db :=
  (Checkouts.checkout_book (100 * day * usec) (100 * day)
     (Some (Checkouts.mk_request (Some 1) (Some 1))) library).2.

(** "1984" as the last checkout of [engine_ops] leaves it: held by Bob. *)
Definition rebooked_1984 : Book.t :=
  Checkouts.set_checked_out 2 (strftime (103 * day * usec + timedelta 7))
    book_1984.

(** The two clocks that the routes read at one instant, [utc] seconds
    after the epoch, on a host whose local time is [utc_offset] seconds
    ahead of UTC: [datetime.now()] is a naive local time, SQLite's
    [CURRENT_TIMESTAMP] is UTC. *)
Definition datetime_now (utc utc_offset : Z) : datetime :=
  (utc + utc_offset) * 1000000.

Definition sql_current_timestamp (utc : Z) : timestamp := utc.

(** A host five hours behind UTC; a checkout at noon UTC of day 100 and
    the return one minute later. *)
Definition utc_minus_5 : Z := - (5 * 3600).
Definition noon_day_100 : Z := 100 * day + 12 * 3600.

(** * Properties *)

(** ** Store lemmas *)

Section StoreLemmas.

Lemma strftime_add_days (now : datetime) (n : Z) :
  strftime (now + timedelta n) = strftime now + n * 86400.
Proof.
  unfold strftime, timedelta.
  replace (now + n * 86400 * 1000000) with (now + (n * 86400) * 1000000)
    by lia.
  rewrite Z.div_add by lia. reflexivity.
Qed.

Lemma max_rowid_ge (ids : list Z) (x : Z) : x ∈ ids → x ≤ max_rowid ids.
Proof.
  induction ids as [|y ids IH]; intros Hin.
  - inversion Hin.
  - apply elem_of_cons in Hin as [->|Hin]; simpl; [lia|].
    specialize (IH Hin). lia.
Qed.

Lemma next_rowid_gt (seq : Z) (ids : list Z) (x : Z) :
  x ∈ ids → x < next_rowid seq ids.
Proof.
  intros Hin. apply max_rowid_ge in Hin. unfold next_rowid. lia.
Qed.

Lemma filter_none {A} (P : A → Prop) `{∀ x, Decision (P x)}
    (l : list A) :
  (∀ x, x ∈ l → ¬ P x) → filter P l = [].
Proof.
  induction l as [|y l IH]; intros Hno; [reflexivity|].
  rewrite filter_cons_False by (apply Hno; left).
  apply IH. intros x Hx. apply Hno. by right.
Qed.

Lemma select_fresh_checkout (cs : list Checkout.t) (seq : Z) :
  filter
    (λ c, Checkout.checkout_id c
          = next_rowid seq (Checkout.checkout_id <$> cs)) cs = [].
Proof.
  apply filter_none. intros c Hc Heq.
  assert (Checkout.checkout_id c ∈ Checkout.checkout_id <$> cs) as Hin
    by (apply list_elem_of_fmap; eauto).
  apply (next_rowid_gt seq) in Hin. lia.
Qed.

(** An [UPDATE] that keeps the primary key commutes with a selection on
    the key. *)
Lemma filter_update_books (k bid : Z) (f : Book.t → Book.t)
    (bs : list Book.t) :
  (∀ b, Book.book_id (f b) = Book.book_id b) →
  filter (λ b, Book.book_id b = k) (update_books bid f bs)
  = update_books bid f (filter (λ b, Book.book_id b = k) bs).
Proof.
  intros Hkey. unfold update_books.
  induction bs as [|b bs IH]; [reflexivity|].
  rewrite fmap_cons, !filter_cons, IH.
  destruct (decide (Book.book_id b = bid)) as [Hb|Hb].
  - rewrite Hkey. destruct (decide (Book.book_id b = k)); [|reflexivity].
    rewrite fmap_cons. by rewrite decide_True.
  - destruct (decide (Book.book_id b = k)); [|reflexivity].
    rewrite fmap_cons. by rewrite decide_False.
Qed.

Lemma select_book_update (k bid : Z) (f : Book.t → Book.t) (d : db)
    (us : list User.t) (cs : list Checkout.t) (seq : Z) :
  (∀ b, Book.book_id (f b) = Book.book_id b) →
  select_book k (mkdb us (update_books bid f (books d)) cs seq)
  = (λ b, if decide (Book.book_id b = bid) then f b else b)
    <$> select_book k d.
Proof.
  intros Hkey. unfold select_book. simpl.
  rewrite filter_update_books by done.
  unfold update_books. by destruct (filter _ (books d)).
Qed.

Lemma select_book_key (k : Z) (d : db) (b : Book.t) :
  select_book k d = Some b → b ∈ books d ∧ Book.book_id b = k.
Proof.
  unfold select_book. intros Hh. apply head_Some_elem_of in Hh.
  apply list_elem_of_filter in Hh. tauto.
Qed.

Lemma select_checkout_key (k : Z) (d : db) (c : Checkout.t) :
  select_checkout k d = Some c
  → c ∈ checkouts d ∧ Checkout.checkout_id c = k.
Proof.
  unfold select_checkout. intros Hh. apply head_Some_elem_of in Hh.
  apply list_elem_of_filter in Hh. tauto.
Qed.

Lemma elem_of_update_books (bid : Z) (f : Book.t → Book.t)
    (bs : list Book.t) (b' : Book.t) :
  b' ∈ update_books bid f bs ↔
  ∃ b, b ∈ bs ∧ b' = if decide (Book.book_id b = bid) then f b else b.
Proof.
  unfold update_books. rewrite list_elem_of_fmap.
  split; intros (b & H1 & H2); eauto.
Qed.

Lemma elem_of_update_checkouts (cid : Z) (f : Checkout.t → Checkout.t)
    (cs : list Checkout.t) (c' : Checkout.t) :
  c' ∈ update_checkouts cid f cs ↔
  ∃ c, c ∈ cs
       ∧ c' = if decide (Checkout.checkout_id c = cid) then f c else c.
Proof.
  unfold update_checkouts. rewrite list_elem_of_fmap.
  split; intros (c & H1 & H2); eauto.
Qed.

End StoreLemmas.

(** ** Checkout and return *)

(** C3.  [checkout_book] answers 404 whenever the user or the book is
    absent, and 409 whenever user and book exist and the book is already
    checked out; the 409 body carries the due date stored on the book. *)
Theorem checkout_book_errors (now : datetime) (cts : timestamp)
    (book_id user_id : Z) (d : db) :
  let res :=
    Checkouts.checkout_book now cts
      (Some (Checkouts.mk_request (Some book_id) (Some user_id))) d in
  (select_user user_id d = None ∨ select_book book_id d = None →
   Checkouts.status_code res.1 = 404
   ∧ (∃ e, res.1 = Checkouts.NotFound e) ∧ res.2 = d)
  ∧ (∀ u book,
       select_user user_id d = Some u →
       select_book book_id d = Some book →
       Book.is_booked book = Some 1 →
       Checkouts.status_code res.1 = 409
       ∧ (∃ e m, res.1 = Checkouts.Conflict e m (Book.due_date book))
       ∧ res.2 = d).
Proof.
  simpl. split.
  - intros [Hu|Hb].
    + rewrite Hu. simpl. eauto.
    + destruct (select_user user_id d); rewrite ?Hb; simpl; eauto.
  - intros u book Hu Hb Hbooked. rewrite Hu, Hb.
    rewrite decide_True by done. simpl. eauto.
Qed.

Lemma checkout_book_errors_witness :
  (Checkouts.checkout_book 0 0
     (Some (Checkouts.mk_request (Some 1) (Some 7))) library).1
  = Checkouts.NotFound "User not found"
  ∧ Checkouts.status_code
      (Checkouts.checkout_book 5 6
         (Some (Checkouts.mk_request (Some 1) (Some 2)))
         (Checkouts.checkout_book 0 0
            (Some (Checkouts.mk_request (Some 1) (Some 1))) library).2).1
    = 409.
Proof.
  split.
  - destruct (checkout_book_errors 0 0 1 7 library) as [H404 _].
    destruct (H404 (or_introl eq_refl)) as (_ & [e He] & _).
    rewrite He. vm_compute in He. congruence.
  - destruct (checkout_book_errors 5 6 1 2
                (Checkouts.checkout_book 0 0
                   (Some (Checkouts.mk_request (Some 1) (Some 1)))
                   library).2) as [_ H409].
    exact (proj1 (H409 bob
                    (Checkouts.set_checked_out 1 604800 book_1984)
                    eq_refl eq_refl eq_refl)).
Defined.

(** C6.  [return_book] on a checkout whose row is already returned
    answers 400 "already returned" and leaves the whole store, hence every
    book row and every checkout row, as it was. *)
Theorem return_book_already_returned (now : datetime) (checkout_id : Z)
    (d : db) (c : Checkout.t) :
  select_checkout checkout_id d = Some c →
  Checkout.is_returned c = 1 →
  Checkouts.return_book now checkout_id d
  = (Checkouts.BadRequest "Book has already been returned", d).
Proof.
  intros Hc Hret. unfold Checkouts.return_book.
  rewrite Hc. by rewrite decide_True.
Qed.

Lemma return_book_already_returned_witness :
  Checkouts.return_book (108 * day * usec) 1 stale_library
  = (Checkouts.BadRequest "Book has already been returned", stale_library).
Proof.
  apply (return_book_already_returned _ 1 stale_library stale_checkout);
    reflexivity.
Defined.

(** A checkout of an existing, available book by an existing user
    succeeds; the answer and the committed store are the following. *)
Lemma checkout_book_success (now : datetime) (cts : timestamp)
    (book_id user_id : Z) (d : db) (u : User.t) (book : Book.t) :
  select_user user_id d = Some u →
  select_book book_id d = Some book →
  Book.is_booked book ≠ Some 1 →
  let due := strftime (now + timedelta 7) in
  let cid := next_rowid (seq_checkouts d) (Checkout.checkout_id <$> checkouts d) in
  Checkouts.checkout_book now cts
    (Some (Checkouts.mk_request (Some book_id) (Some user_id))) d
  = (Checkouts.Created cid book_id user_id due,
     mkdb (users d)
       (update_books book_id (Checkouts.set_checked_out user_id due) (books d))
       (checkouts d ++ [Checkout.mk cid book_id user_id cts None due 0])
       cid).
Proof.
  intros Hu Hb Hfree. unfold Checkouts.checkout_book. simpl.
  rewrite Hu, Hb. by rewrite decide_False.
Qed.

(** Conversely a 201 answer only comes out of the success path. *)
Lemma checkout_book_created_inv (now : datetime) (cts : timestamp)
    (data : option Checkouts.request) (d d' : db)
    (cid book_id user_id : Z) (due : timestamp) :
  Checkouts.checkout_book now cts data d
  = (Checkouts.Created cid book_id user_id due, d') →
  data = Some (Checkouts.mk_request (Some book_id) (Some user_id))
  ∧ (∃ u, select_user user_id d = Some u)
  ∧ (∃ book, select_book book_id d = Some book
             ∧ Book.is_booked book ≠ Some 1).
Proof.
  unfold Checkouts.checkout_book.
  destruct data as [[[b|] [u|]]|]; simpl; try discriminate.
  destruct (select_user u d) as [usr|] eqn:Hu; [|discriminate].
  destruct (select_book b d) as [book|] eqn:Hb; [|discriminate].
  destruct (decide (Book.is_booked book = Some 1)); [discriminate|].
  intros [= <- <- <- <- <-]. eauto 6.
Qed.

(** C9.  After a successful checkout at time [now] the book row and the
    appended checkout row carry the same due date, the text form of
    [now] plus seven days. *)
Theorem checkout_book_due_date (now : datetime) (cts : timestamp)
    (data : option Checkouts.request) (d d' : db)
    (cid book_id user_id : Z) (due : timestamp) :
  Checkouts.checkout_book now cts data d
  = (Checkouts.Created cid book_id user_id due, d') →
  due = strftime (now + timedelta 7)
  ∧ due = strftime now + 7 * 86400
  ∧ (∃ book', select_book book_id d' = Some book'
              ∧ Book.due_date book' = Some due)
  ∧ (∀ b, b ∈ books d' → Book.book_id b = book_id →
          Book.due_date b = Some due)
  ∧ (∃ row, checkouts d' = checkouts d ++ [row]
            ∧ Checkout.checkout_id row = cid
            ∧ Checkout.book_id row = book_id
            ∧ Checkout.due_date row = due).
Proof.
  intros Hrun.
  destruct (checkout_book_created_inv _ _ _ _ _ _ _ _ _ Hrun)
    as (-> & [u Hu] & book & Hb & Hfree).
  rewrite (checkout_book_success now cts book_id user_id d u book Hu Hb Hfree)
    in Hrun.
  injection Hrun as <- <- <-.
  split; [reflexivity|]. split; [apply strftime_add_days|].
  split; [|split].
  - rewrite select_book_update, Hb by done. simpl.
    destruct (select_book_key _ _ _ Hb) as [_ Hk].
    rewrite decide_True by done. eauto.
  - simpl. intros b Hin Hid.
    apply elem_of_update_books in Hin as (b0 & Hb0 & ->).
    destruct (decide (Book.book_id b0 = book_id)); [reflexivity|done].
  - simpl. eauto 6.
Qed.

Lemma checkout_book_due_date_witness :
  9244800 = strftime (100 * day * usec + timedelta 7)
  ∧ 9244800 = strftime (100 * day * usec) + 7 * 86400.
Proof.
  pose proof (checkout_book_due_date (100 * day * usec) (100 * day)
                (Some (Checkouts.mk_request (Some 1) (Some 1))) library
                _ 1 1 1 9244800 eq_refl) as H.
  exact (conj (proj1 H) (proj1 (proj2 H))).
Defined.

(** Checking out an available book and returning the checkout it
    produced: both requests succeed, the book ends available with holder
    and due date cleared, and the checkout row ends returned; its
    [checkout_date] is the [CURRENT_TIMESTAMP] of the checkout and its
    [return_date] the [datetime.now()] of the return. *)
Lemma checkout_then_return (now1 now2 : datetime) (cts : timestamp)
    (book_id user_id : Z) (d : db) (u : User.t) (book : Book.t) :
  select_user user_id d = Some u →
  select_book book_id d = Some book →
  Book.is_booked book ≠ Some 1 →
  ∃ cid due d1 d2 book' row,
    Checkouts.checkout_book now1 cts
      (Some (Checkouts.mk_request (Some book_id) (Some user_id))) d
    = (Checkouts.Created cid book_id user_id due, d1)
    ∧ Checkouts.return_book now2 cid d1
      = (Checkouts.Returned cid book_id (strftime now2), d2)
    ∧ select_book book_id d2 = Some book'
    ∧ (∀ b, b ∈ books d2 → Book.book_id b = book_id →
         Book.is_booked b = Some 0
         ∧ Book.booked_by_user_id b = None ∧ Book.due_date b = None)
    ∧ select_checkout cid d2 = Some row
    ∧ Checkout.book_id row = book_id
    ∧ Checkout.is_returned row = 1
    ∧ Checkout.return_date row = Some (strftime now2)
    ∧ Checkout.checkout_date row = cts.
Proof.
  intros Hu Hb Hfree.
  pose proof (checkout_book_success now1 cts book_id user_id d u book
                Hu Hb Hfree) as Hco.
  simpl in Hco.
  set (due := strftime (now1 + timedelta 7)) in *.
  set (cid := next_rowid (seq_checkouts d)
                (Checkout.checkout_id <$> checkouts d)) in *.
  set (row0 := Checkout.mk cid book_id user_id cts None due 0) in *.
  set (d1 := mkdb _ _ _ _) in Hco.
  assert (select_checkout cid d1 = Some row0) as Hsel.
  { unfold select_checkout, d1. simpl. rewrite filter_app.
    unfold cid at 1. rewrite select_fresh_checkout. simpl.
    rewrite filter_cons_True by reflexivity. reflexivity. }
  assert (Checkouts.return_book now2 cid d1
          = (Checkouts.Returned cid book_id (strftime now2),
             mkdb (users d1)
               (update_books book_id Checkouts.set_available (books d1))
               (update_checkouts cid
                  (Checkouts.set_returned (strftime now2)) (checkouts d1))
               (seq_checkouts d1))) as Hret.
  { unfold Checkouts.return_book. rewrite Hsel. reflexivity. }
  destruct (select_book_key _ _ _ Hb) as [_ Hk].
  eexists cid, due, d1, _, _, (Checkouts.set_returned (strftime now2) row0).
  split; [exact Hco|]. split; [exact Hret|].
  split; [|split; [|split]].
  - rewrite select_book_update by done. unfold d1.
    rewrite select_book_update, Hb by done. simpl.
    rewrite (decide_True (P := Book.book_id book = book_id)) by done.
    simpl. rewrite decide_True by done. reflexivity.
  - simpl. intros b Hin Hid.
    apply elem_of_update_books in Hin as (b0 & Hb0 & ->).
    destruct (decide (Book.book_id b0 = book_id)); [by simpl|done].
  - unfold select_checkout. simpl. unfold update_checkouts.
    rewrite fmap_app.  rewrite filter_app.
    rewrite (filter_none _ (_ <$> checkouts d)).
    + simpl. rewrite decide_True by reflexivity.
      rewrite filter_cons_True by reflexivity. reflexivity.
    + intros c Hc. apply list_elem_of_fmap in Hc as (c0 & -> & Hc0).
      assert (Checkout.checkout_id c0 < cid) as Hlt.
      { apply next_rowid_gt. apply list_elem_of_fmap. eauto. }
      destruct (decide (Checkout.checkout_id c0 = cid)); simpl; lia.
  - simpl. repeat split; done.
Qed.

Lemma strftime_datetime_now (utc utc_offset : Z) :
  strftime (datetime_now utc utc_offset) = utc + utc_offset.
Proof. unfold strftime, datetime_now. by rewrite Z.div_mul. Qed.

(** The two stamps of a round trip on a host [utc_offset] seconds ahead
    of UTC, checkout at [utc1] and return at [utc2]: the stored return
    stamp is smaller than the stored checkout stamp exactly when
    [utc2 + utc_offset < utc1]. *)
Lemma roundtrip_stamps (utc1 utc2 utc_offset : Z) (book_id user_id : Z)
    (d : db) (u : User.t) (book : Book.t) :
  select_user user_id d = Some u →
  select_book book_id d = Some book →
  Book.is_booked book ≠ Some 1 →
  ∃ cid due d1 d2 row,
    Checkouts.checkout_book (datetime_now utc1 utc_offset)
      (sql_current_timestamp utc1)
      (Some (Checkouts.mk_request (Some book_id) (Some user_id))) d
    = (Checkouts.Created cid book_id user_id due, d1)
    ∧ (Checkouts.return_book (datetime_now utc2 utc_offset) cid d1).2 = d2
    ∧ select_checkout cid d2 = Some row
    ∧ Checkout.checkout_date row = utc1
    ∧ Checkout.return_date row = Some (utc2 + utc_offset).
Proof.
  intros Hu Hb Hfree.
  destruct (checkout_then_return (datetime_now utc1 utc_offset)
              (datetime_now utc2 utc_offset) (sql_current_timestamp utc1)
              book_id user_id d u book Hu Hb Hfree)
    as (cid & due & d1 & d2 & book' & row & Hco & Hret & _ & _ & Hrow
        & _ & _ & Hrd & Hcd).
  exists cid, due, d1, d2, row. rewrite Hret.
  rewrite strftime_datetime_now in Hrd. auto.
Qed.

(** C2 at the failing input.  On a host five hours behind UTC Alice
    checks out "1984" at noon UTC and returns it one minute later.  Both
    requests succeed and the book is available again with holder and due
    date cleared, but the checkout row carries a [return_date] that is
    smaller than its [checkout_date]: the first is local time, the second
    UTC. *)
Theorem return_stamp_before_checkout_stamp :
  let req := Some (Checkouts.mk_request (Some 1) (Some 1)) in
  let co :=
    Checkouts.checkout_book (datetime_now noon_day_100 utc_minus_5)
      (sql_current_timestamp noon_day_100) req library in
  let re :=
    Checkouts.return_book (datetime_now (noon_day_100 + 60) utc_minus_5) 1
      co.2 in
  co.1 = Checkouts.Created 1 1 1 (noon_day_100 + utc_minus_5 + 7 * day)
  ∧ re.1 = Checkouts.Returned 1 1 (noon_day_100 + 60 + utc_minus_5)
  ∧ select_book 1 re.2 = Some book_1984
  ∧ ∃ row,
      select_checkout 1 re.2 = Some row
      ∧ Checkout.is_returned row = 1
      ∧ Checkout.checkout_date row = noon_day_100
      ∧ Checkout.return_date row = Some (noon_day_100 + 60 + utc_minus_5)
      ∧ noon_day_100 + 60 + utc_minus_5 < Checkout.checkout_date row.
Proof.
  cbv zeta. split; [reflexivity|]. split; [reflexivity|].
  split; [reflexivity|].
  eexists. split; [reflexivity|]. repeat split.
Qed.

(** The two outcomes of a checkout request: nothing is written, or the
    success path ran on an existing user and an existing book that was
    not booked. *)
Lemma checkout_book_cases (now : datetime) (cts : timestamp)
    (data : option Checkouts.request) (d : db) :
  (Checkouts.checkout_book now cts data d).2 = d
  ∨ ∃ book_id user_id book,
      select_book book_id d = Some book
      ∧ Book.is_booked book ≠ Some 1
      ∧ (Checkouts.checkout_book now cts data d).2
        = mkdb (users d)
            (update_books book_id
               (Checkouts.set_checked_out user_id
                  (strftime (now + timedelta 7))) (books d))
            (checkouts d
             ++ [Checkout.mk
                   (next_rowid (seq_checkouts d)
                      (Checkout.checkout_id <$> checkouts d))
                   book_id user_id cts None
                   (strftime (now + timedelta 7)) 0])
            (next_rowid (seq_checkouts d)
               (Checkout.checkout_id <$> checkouts d)).
Proof.
  unfold Checkouts.checkout_book.
  destruct data as [[[b|] [u|]]|]; simpl; auto.
  destruct (select_user u d) as [usr|]; auto.
  destruct (select_book b d) as [book|] eqn:Hb; auto.
  destruct (decide (Book.is_booked book = Some 1)); auto.
  right. exists b, u, book. auto.
Qed.

(** The two outcomes of a return request. *)
Lemma return_book_cases (now : datetime) (checkout_id : Z) (d : db) :
  (Checkouts.return_book now checkout_id d).2 = d
  ∨ ∃ c,
      select_checkout checkout_id d = Some c
      ∧ Checkout.is_returned c ≠ 1
      ∧ (Checkouts.return_book now checkout_id d).2
        = mkdb (users d)
            (update_books (Checkout.book_id c) Checkouts.set_available
               (books d))
            (update_checkouts checkout_id
               (Checkouts.set_returned (strftime now)) (checkouts d))
            (seq_checkouts d).
Proof.
  unfold Checkouts.return_book.
  destruct (select_checkout checkout_id d) as [c|] eqn:Hc; auto.
  destruct (decide (Checkout.is_returned c = 1)); auto.
  right. exists c. auto.
Qed.

Lemma delete_user_tables (user_id : Z) (d : db) :
  books (Users.delete_user user_id d).2 = books d
  ∧ checkouts (Users.delete_user user_id d).2 = checkouts d.
Proof.
  unfold Users.delete_user. by destruct (select_user user_id d).
Qed.

(** C10.  Deleting an existing user answers 200 and removes the rows of
    that user from the users table and nothing else: the other users are
    the same rows in the same order and can be selected as before, and
    the books and checkouts tables and the checkout sequence are
    unchanged.  So a book held by the user keeps its [is_booked],
    [booked_by_user_id] and [due_date] although the user it names can no
    longer be selected, and the user's checkout rows stay. *)
Theorem delete_user_keeps_books_and_checkouts (user_id : Z) (d : db)
    (u : User.t) :
  select_user user_id d = Some u →
  ∃ d',
    Users.delete_user user_id d = (Users.Deleted, d')
    ∧ users d' = filter (λ x, User.user_id x ≠ user_id) (users d)
    ∧ (∀ x, x ∈ users d' ↔ x ∈ users d ∧ User.user_id x ≠ user_id)
    ∧ (∀ k, k ≠ user_id → select_user k d' = select_user k d)
    ∧ books d' = books d
    ∧ checkouts d' = checkouts d
    ∧ seq_checkouts d' = seq_checkouts d
    ∧ select_user user_id d' = None
    ∧ (∀ b, b ∈ books d → Book.booked_by_user_id b = Some user_id →
         b ∈ books d' ∧ select_user user_id d' = None)
    ∧ (∀ c, c ∈ checkouts d → Checkout.user_id c = user_id →
         c ∈ checkouts d').
Proof.
  intros Hu. unfold Users.delete_user. rewrite Hu.
  eexists. split; [reflexivity|]. simpl.
  set (d' := mkdb (filter (λ x, User.user_id x ≠ user_id) (users d))
               (books d) (checkouts d) (seq_checkouts d)).
  assert (select_user user_id d' = None) as Hgone.
  { unfold select_user. simpl. rewrite filter_none; [reflexivity|].
    intros x Hx. apply list_elem_of_filter in Hx. tauto. }
  split; [reflexivity|]. split.
  { intros x. rewrite list_elem_of_filter. tauto. }
  split.
  { intros k Hk. unfold select_user. simpl. f_equal.
    rewrite list_filter_filter. apply list_filter_iff.
    intros x. split; [tauto|]. intros Hx. split; [done|congruence]. }
  repeat split; auto.
Qed.

Lemma delete_user_keeps_books_and_checkouts_witness :
  (Checkouts.set_checked_out 1 (strftime (100 * day * usec + timedelta 7))
     book_1984 ∈ books lending_library)
  ∧ ∃ d',
      Users.delete_user 1 lending_library = (Users.Deleted, d')
      ∧ users d'
        = filter (λ x, User.user_id x ≠ 1) (users lending_library)
      ∧ (∀ x, x ∈ users d' ↔
              x ∈ users lending_library ∧ User.user_id x ≠ 1)
      ∧ (∀ k, k ≠ 1 → select_user k d' = select_user k lending_library)
      ∧ books d' = books lending_library
      ∧ checkouts d' = checkouts lending_library
      ∧ seq_checkouts d' = seq_checkouts lending_library
      ∧ select_user 1 d' = None
      ∧ (∀ b, b ∈ books lending_library →
           Book.booked_by_user_id b = Some 1 →
           b ∈ books d' ∧ select_user 1 d' = None)
      ∧ (∀ c, c ∈ checkouts lending_library → Checkout.user_id c = 1 →
           c ∈ checkouts d').
Proof.
  split; [by left|].
  apply (delete_user_keeps_books_and_checkouts 1 lending_library alice).
  reflexivity.
Defined.

(** After Alice, who holds "1984", is deleted, Bob is still a user, the
    book is still booked by user 1, and user 1 cannot be selected. *)
Example delete_holder_leaves_dangling_book :
  let d' := (Users.delete_user 1 lending_library).2 in
  users d' = [bob]
  ∧ select_book 1 d'
    = Some (Checkouts.set_checked_out 1
              (strftime (100 * day * usec + timedelta 7)) book_1984)
  ∧ select_user 1 d' = None
  ∧ length (checkouts d') = 1%nat.
Proof. repeat split. Qed.

(** ** The availability invariant *)










(** ** The ledger invariant *)

Lemma length_filter_fmap_le {A} (P : A → Prop) `{∀ x, Decision (P x)}
    (f : A → A) (l : list A) :
  (∀ x, P (f x) → P x) →
  (length (filter P (f <$> l)) ≤ length (filter P l))%nat.
Proof.
  intros Hf. induction l as [|x l IH]; [done|].
  rewrite fmap_cons, !filter_cons.
  destruct (decide (P (f x))) as [Hfx|Hfx].
  - rewrite decide_True by auto. simpl. lia.
  - destruct (decide (P x)); simpl; lia.
Qed.

Lemma filter_two {A} (P : A → Prop) `{∀ x, Decision (P x)}
    (l : list A) (x y : A) :
  x ∈ l → y ∈ l → x ≠ y → P x → P y → (2 ≤ length (filter P l))%nat.
Proof.
  intros Hx Hy Hne HPx HPy.
  assert (x ∈ filter P l) as Hxf by (apply list_elem_of_filter; auto).
  assert (y ∈ filter P l) as Hyf by (apply list_elem_of_filter; auto).
  destruct (filter P l) as [|a [|b m]]; simpl; [|exfalso|lia].
  - inversion Hxf.
  - apply list_elem_of_singleton in Hxf, Hyf. congruence.
Qed.

Lemma checkout_book_consistent (now : datetime) (cts : timestamp)
    (data : option Checkouts.request) (d : db) :
  consistent d → consistent (Checkouts.checkout_book now cts data d).2.
Proof.
  intros (Hledger & Hflag & Hlink).
  destruct (checkout_book_cases now cts data d)
    as [->|(bid & uid & book & Hb & Hfree & ->)]; [done|].
  destruct (select_book_key _ _ _ Hb) as [Hbin Hbid].
  assert (filter (active bid) (checkouts d) = []) as Hnone.
  { apply filter_none. intros c Hc [Hcb Hcr].
    apply Hfree. apply (Hlink c book); auto. congruence. }
  split; [|split].
  - intros k. unfold active_count. simpl.
    rewrite filter_app, length_app.
    destruct (decide (k = bid)) as [->|Hk].
    + rewrite Hnone. rewrite filter_cons_True by done. simpl. lia.
    + rewrite filter_cons_False by (intros [? _]; simpl in *; congruence).
      simpl. specialize (Hledger k). unfold active_count in Hledger. lia.
  - simpl. intros c Hc. apply elem_of_app in Hc as [Hc|Hc]; [auto|].
    apply list_elem_of_singleton in Hc as ->. by left.
  - simpl. intros c b Hc Hret Hbk Hid.
    apply elem_of_update_books in Hbk as (b0 & Hb0 & ->).
    destruct (decide (Book.book_id b0 = bid)) as [Hb0id|Hb0id];
      [reflexivity|].
    apply elem_of_app in Hc as [Hc|Hc].
    + by apply (Hlink c b0).
    + apply list_elem_of_singleton in Hc as ->. simpl in Hid. congruence.
Qed.

Lemma return_book_consistent (now : datetime) (checkout_id : Z) (d : db) :
  consistent d → consistent (Checkouts.return_book now checkout_id d).2.
Proof.
  intros (Hledger & Hflag & Hlink).
  destruct (return_book_cases now checkout_id d)
    as [->|(c0 & Hc0 & Hopen & ->)]; [done|].
  destruct (select_checkout_key _ _ _ Hc0) as [Hc0in Hc0id].
  assert (Checkout.is_returned c0 = 0) as Hc0ret
    by (destruct (Hflag c0 Hc0in); [done|congruence]).
  split; [|split].
  - intros k. unfold active_count. simpl.
    etransitivity; [|exact (Hledger k)].
    unfold update_checkouts, active_count.
    apply length_filter_fmap_le. intros c.
    destruct (decide (Checkout.checkout_id c = checkout_id)); [|done].
    intros [_ Hr]. simpl in Hr. lia.
  - simpl. intros c Hc.
    apply elem_of_update_checkouts in Hc as (c1 & Hc1 & ->).
    destruct (decide (Checkout.checkout_id c1 = checkout_id)); [by right|].
    auto.
  - simpl. intros c b Hc Hret Hbk Hid.
    apply elem_of_update_checkouts in Hc as (c1 & Hc1 & ->).
    destruct (decide (Checkout.checkout_id c1 = checkout_id)) as [|Hne];
      [simpl in Hret; lia|].
    apply elem_of_update_books in Hbk as (b0 & Hb0 & ->).
    destruct (decide (Book.book_id b0 = Checkout.book_id c0)) as [Hsame|];
      [|by apply (Hlink c1 b0)].
    exfalso. simpl in Hid.
    assert (2 ≤ active_count (Checkout.book_id c0) d)%nat as Htwo.
    { apply (filter_two _ _ c0 c1); auto.
      - congruence.
      - by split.
      - split; [congruence|done]. }
    specialize (Hledger (Checkout.book_id c0)). lia.
Qed.

Lemma step_consistent (d : db) (o : op) :
  engine_op o → consistent d → consistent (step d o).
Proof.
  destruct o; simpl; try done; intros _.
  - apply checkout_book_consistent.
  - apply return_book_consistent.
Qed.

(** C5.  From a consistent store, every store reached through checkout
    and return requests again has, for each book, at most one checkout
    row with [is_returned = 0] (and is consistent again, so that checkout
    and return each preserve this). *)
Theorem ledger_invariant_reachable (ops : list op) (d : db) :
  Forall engine_op ops →
  consistent d →
  ledger_invariant (run ops d) ∧ consistent (run ops d).
Proof.
  intros Hops Hd. assert (consistent (run ops d)) as Hc.
  { unfold run. revert d Hd.
    induction Hops as [|o ops Ho Hops IH]; intros d Hd; [exact Hd|].
    simpl. apply IH. by apply step_consistent. }
  split; [apply Hc|exact Hc].
Qed.

Lemma library_consistent : consistent library.
Proof.
  split; [|split].
  - intros bid. unfold active_count. simpl. lia.
  - intros c Hc. inversion Hc.
  - intros c b Hc. inversion Hc.
Qed.

Lemma ledger_invariant_reachable_witness :
  ledger_invariant (run engine_ops library)
  ∧ consistent (run engine_ops library).
Proof.
  apply (ledger_invariant_reachable engine_ops library).
  - repeat (apply Forall_cons_2; [exact I|]). apply Forall_nil_2.
  - exact library_consistent.
Defined.

(** ** Recommendations *)

Section HelperLemmas.

Context {A K : Type} `{EqDecision K} (key : A → K).

Lemma first_occurrences_sublist (prev : list K) (l : list A) :
  first_occurrences key prev l `sublist_of` l.
Proof.
  revert prev. induction l as [|x l IH]; intros prev; simpl; [done|].
  destruct (decide (key x ∈ prev)).
  - apply sublist_cons, IH.
  - apply sublist_skip, IH.
Qed.

Lemma first_occurrences_fresh (prev : list K) (l : list A) (x : A) :
  x ∈ first_occurrences key prev l → key x ∉ prev.
Proof.
  revert prev. induction l as [|y l IH]; intros prev; simpl.
  - inversion 1.
  - destruct (decide (key y ∈ prev)) as [|Hy]; [apply IH|].
    intros [->|Hin]%elem_of_cons; [done|].
    apply IH in Hin. intros Hp. apply Hin. by right.
Qed.

Lemma first_occurrences_NoDup (prev : list K) (l : list A) :
  NoDup (key <$> first_occurrences key prev l).
Proof.
  revert prev. induction l as [|x l IH]; intros prev; simpl.
  - constructor.
  - destruct (decide (key x ∈ prev)); [apply IH|].
    rewrite fmap_cons. apply NoDup_cons. split; [|apply IH].
    intros (y & Hk & Hy)%list_elem_of_fmap.
    apply first_occurrences_fresh in Hy. apply Hy. rewrite Hk. by left.
Qed.

Lemma first_occurrences_keys (prev : list K) (l : list A) (k : K) :
  k ∈ key <$> first_occurrences key prev l ↔ k ∈ key <$> l ∧ k ∉ prev.
Proof.
  revert prev. induction l as [|x l IH]; intros prev;
    cbn [first_occurrences].
  - split; [inversion 1|]. intros [Hin _]. inversion Hin.
  - destruct (decide (key x ∈ prev)) as [Hx|Hx].
    + rewrite IH, fmap_cons, elem_of_cons. split; [tauto|].
      intros [[->|Hin] Hp]; tauto.
    + rewrite !fmap_cons, !elem_of_cons, IH, elem_of_cons.
      split.
      * intros [->|[Hin Hp]]; tauto.
      * intros [[->|Hin] Hp]; [by left|].
        destruct (decide (k = key x)); tauto.
Qed.

End HelperLemmas.

Lemma distinct_NoDup {A} `{EqDecision A} (l : list A) : NoDup (distinct l).
Proof.
  unfold distinct.
  rewrite <- (list_fmap_id (first_occurrences id [] l)).
  apply first_occurrences_NoDup.
Qed.

Lemma elem_of_distinct {A} `{EqDecision A} (l : list A) (x : A) :
  x ∈ distinct l ↔ x ∈ l.
Proof.
  unfold distinct.
  rewrite <- (list_fmap_id (first_occurrences id [] l)).
  rewrite first_occurrences_keys, list_fmap_id.
  split; [tauto|]. intros Hx. split; [done|]. inversion 1.
Qed.

Lemma extend_each_bind {K A} (query : K → list A) (keys : list K) :
  extend_each query keys = keys ≫= query.
Proof.
  unfold extend_each.
  assert (∀ acc, foldl (λ acc k, acc ++ query k) acc keys
                 = acc ++ (keys ≫= query)) as Hgen.
  { induction keys as [|k keys IH]; intros acc; cbn [foldl].
    - by rewrite app_nil_r.
    - rewrite IH, bind_cons. by rewrite (assoc_L (++)). }
  apply (Hgen []).
Qed.

(** The loop with the [seen_ids] set keeps exactly the first occurrence of
    every book id. *)
Lemma remove_duplicates_first_occurrences (bs : list Book.t) :
  remove_duplicates bs = first_occurrences Book.book_id [] bs.
Proof.
  unfold remove_duplicates.
  assert (∀ (seen : gset Z) prev acc,
            (∀ x, x ∈ seen ↔ x ∈ prev) →
            (foldl dedup_step (seen, acc) bs).2
            = acc ++ first_occurrences Book.book_id prev bs) as Hgen.
  { induction bs as [|b bs IH]; intros seen prev acc Hseen; simpl.
    - by rewrite app_nil_r.
    - unfold dedup_step at 2. simpl.
      destruct (decide (Book.book_id b ∈ seen)) as [Hb|Hb].
      + rewrite decide_True by (by apply Hseen). by apply IH.
      + rewrite decide_False by (by rewrite <- Hseen).
        rewrite (IH _ (Book.book_id b :: prev)).
        * by rewrite <- (assoc_L (++)).
        * intros x. rewrite elem_of_union, elem_of_singleton, elem_of_cons.
          by rewrite Hseen. }
  apply (Hgen ∅ [] []). intros x. split; [set_solver|inversion 1].
Qed.

Lemma elem_of_join (cs : list Checkout.t) (bs : list Book.t)
    (r : Checkout.t * Book.t) :
  r ∈ Homepage.join cs bs ↔
  r.1 ∈ cs ∧ r.2 ∈ bs ∧ Book.book_id r.2 = Checkout.book_id r.1.
Proof.
  unfold Homepage.join. rewrite list_elem_of_bind. split.
  - intros (c & Hr & Hc). apply list_elem_of_fmap in Hr as (b & -> & Hb).
    apply list_elem_of_filter in Hb. simpl. tauto.
  - intros (Hc & Hb & Hid). exists r.1. split; [|done].
    apply list_elem_of_fmap. exists r.2. split; [by destruct r|].
    by apply list_elem_of_filter.
Qed.

Lemma recent_checkouts_no_history (user_id : Z) (d : db) :
  (∀ c, c ∈ checkouts d → Checkout.user_id c ≠ user_id) →
  Homepage.recent_checkouts user_id d = [].
Proof.
  intros Hnone. unfold Homepage.recent_checkouts.
  rewrite filter_none; [reflexivity|].
  intros r Hr. apply elem_of_join in Hr as [Hc _]. by apply Hnone.
Qed.

(** C7, as amended.  For a user without checkout rows the answer is the
    no-history dictionary: [by_author], [by_year] and [similar_users] are
    empty lists, the explanatory message is present, and there is no
    [based_on_books] entry. *)
Theorem recommendations_no_history
    (list_set : ∀ A, EqDecision A → list A → list A) (user_id : Z) (d : db) :
  (∀ c, c ∈ checkouts d → Checkout.user_id c ≠ user_id) →
  Homepage.get_user_recommendations list_set user_id d
  = Homepage.mk_recommendations [] [] []
      (Some "No checkout history found. Check out some books to get recommendations!")
      None.
Proof.
  intros Hnone. unfold Homepage.get_user_recommendations.
  by rewrite recent_checkouts_no_history.
Qed.

Lemma recommendations_no_history_witness :
  Homepage.get_user_recommendations first_seen_set 2 orwell_reader
  = Homepage.mk_recommendations [] [] []
      (Some "No checkout history found. Check out some books to get recommendations!")
      None.
Proof.
  apply (recommendations_no_history first_seen_set 2 orwell_reader).
  intros c Hc. simpl in Hc.
  apply elem_of_cons in Hc as [->|Hc]; [discriminate|].
  apply list_elem_of_singleton in Hc as ->. discriminate.
Defined.

(** C7, as stated, fails: Bob has no checkout row, yet the answer does not
    hold four empty fields, since the seed field is missing from it. *)
Lemma no_history_lacks_seed_field :
  (∀ c, c ∈ checkouts orwell_reader → Checkout.user_id c ≠ 2)
  ∧ ¬ (let r := Homepage.get_user_recommendations first_seen_set 2
                  orwell_reader in
       Homepage.by_author r = [] ∧ Homepage.by_year r = []
       ∧ Homepage.similar_users r = []
       ∧ Homepage.based_on_books r = Some []
       ∧ is_Some (Homepage.message r)).
Proof.
  split.
  - intros c Hc. simpl in Hc.
    apply elem_of_cons in Hc as [->|Hc]; [discriminate|].
    apply list_elem_of_singleton in Hc as ->. discriminate.
  - simpl. intros (_ & _ & _ & Hseed & _). vm_compute in Hseed.
    discriminate.
Qed.

Lemma spec_by_author_props (seed_ids : list Z) (authors : list string)
    (d : db) :
  NoDup (Book.book_id <$> spec_by_author seed_ids authors d)
  ∧ (∀ b, b ∈ spec_by_author seed_ids authors d →
       (Book.book_id b ∉ seed_ids) ∧ Book.author b ∈ authors ∧ b ∈ books d)
  ∧ (length (spec_by_author seed_ids authors d) ≤ 10)%nat.
Proof.
  unfold spec_by_author. split; [|split].
  - rewrite fmap_take.
    eapply sublist_NoDup;
      [apply (first_occurrences_NoDup Book.book_id)|apply sublist_take].
  - intros b Hb. apply subseteq_take in Hb.
    eapply elem_of_sublist in Hb; [|apply first_occurrences_sublist].
    apply list_elem_of_bind in Hb as (a & Hb & Ha).
    apply subseteq_take in Hb.
    apply list_elem_of_filter in Hb as [[<- Hseed] Hin]. auto.
  - rewrite length_take. lia.
Qed.

(** C8.  [by_author] is the list described by the specification: for the
    distinct (non-empty) authors of the seed rows, in the order in which
    the set of authors is enumerated, up to 5 non-seed books per author,
    concatenated, first occurrences of each book id only, cut at 10.  It
    therefore holds no seed book, no book id twice, and at most 10
    entries. *)
Theorem by_author_spec
    (list_set : ∀ A, EqDecision A → list A → list A) (user_id : Z) (d : db) :
  (∀ A (H : EqDecision A) (l : list A),
     NoDup (list_set A H l) ∧ ∀ x, x ∈ list_set A H l ↔ x ∈ l) →
  let rc := Homepage.recent_checkouts user_id d in
  let r := Homepage.get_user_recommendations list_set user_id d in
  ∃ authors,
    NoDup authors
    ∧ (∀ a, a ∈ authors ↔
            a ≠ "" ∧ ∃ c, c ∈ rc ∧ Homepage.author c = a)
    ∧ Homepage.by_author r
      = spec_by_author (Homepage.book_id <$> rc) authors d
    ∧ NoDup (Book.book_id <$> Homepage.by_author r)
    ∧ (∀ b, b ∈ Homepage.by_author r →
         (Book.book_id b ∉ Homepage.book_id <$> rc)
         ∧ Book.author b ∈ authors ∧ b ∈ books d)
    ∧ (length (Homepage.by_author r) ≤ 10)%nat.
Proof.
  intros Hset rc r.
  set (authors := Homepage.recent_authors list_set rc).
  assert (∀ a, a ∈ authors ↔
               a ≠ "" ∧ ∃ c, c ∈ rc ∧ Homepage.author c = a) as Hauthors.
  { intros a. unfold authors, Homepage.recent_authors.
    rewrite (proj2 (Hset _ _ _)), list_elem_of_fmap. split.
    - intros (c & -> & Hc). apply list_elem_of_filter in Hc as [Hne Hc].
      eauto.
    - intros (Hne & c & Hc & <-). exists c. split; [done|].
      by apply list_elem_of_filter. }
  assert (Homepage.by_author r
          = spec_by_author (Homepage.book_id <$> rc) authors d) as Hspec.
  { unfold r, Homepage.get_user_recommendations. fold rc.
    destruct rc as [|c rc'] eqn:Hrc.
    - destruct authors as [|a ?]; [reflexivity|].
      destruct (proj1 (Hauthors a)) as (_ & c & Hc & _); [by left|].
      inversion Hc.
    - cbn [Homepage.by_author]. fold authors.
      rewrite extend_each_bind, remove_duplicates_first_occurrences.
      reflexivity. }
  exists authors. split; [apply Hset|]. split; [exact Hauthors|].
  split; [exact Hspec|]. rewrite Hspec. apply spec_by_author_props.
Qed.

Lemma first_seen_set_enumerates (A : Type) (H : EqDecision A) (l : list A) :
  NoDup (first_seen_set A H l) ∧ ∀ x, x ∈ first_seen_set A H l ↔ x ∈ l.
Proof.
  unfold first_seen_set. split; [apply distinct_NoDup|].
  intros x. apply elem_of_distinct.
Qed.

Lemma by_author_spec_witness :
  ∃ authors,
    NoDup authors
    ∧ (∀ a, a ∈ authors ↔
            a ≠ "" ∧ ∃ c, c ∈ Homepage.recent_checkouts 1 orwell_reader
                          ∧ Homepage.author c = a)
    ∧ Homepage.by_author
        (Homepage.get_user_recommendations first_seen_set 1 orwell_reader)
      = spec_by_author
          (Homepage.book_id <$> Homepage.recent_checkouts 1 orwell_reader)
          authors orwell_reader
    ∧ NoDup (Book.book_id
             <$> Homepage.by_author
                   (Homepage.get_user_recommendations first_seen_set 1
                      orwell_reader))
    ∧ (∀ b, b ∈ Homepage.by_author
                  (Homepage.get_user_recommendations first_seen_set 1
                     orwell_reader) →
         (Book.book_id b
          ∉ Homepage.book_id <$> Homepage.recent_checkouts 1 orwell_reader)
         ∧ Book.author b ∈ authors ∧ b ∈ books orwell_reader)
    ∧ (length
         (Homepage.by_author
            (Homepage.get_user_recommendations first_seen_set 1
               orwell_reader)) ≤ 10)%nat.
Proof.
  apply (by_author_spec first_seen_set 1 orwell_reader).
  exact first_seen_set_enumerates.
Defined.

(** On the sample store Alice's seeds are "Animal Farm" and "1984", and
    the only recommendation by author is the third Orwell book. *)
Example by_author_orwell :
  Homepage.by_author
    (Homepage.get_user_recommendations first_seen_set 1 orwell_reader)
  = [burmese_days].
Proof. reflexivity. Qed.

(** ** Trending *)

Lemma elem_of_insert_desc {A} (key : A → Z) (x y : A) (l : list A) :
  y ∈ insert_desc key x l ↔ y = x ∨ y ∈ l.
Proof.
  induction l as [|z l IH]; simpl.
  - rewrite list_elem_of_singleton. split; [auto|].
    intros [->|Hin]; [done|inversion Hin].
  - destruct (decide (key x < key z)).
    + rewrite !elem_of_cons, IH. tauto.
    + rewrite !elem_of_cons. tauto.
Qed.

Lemma elem_of_order_by_desc {A} (key : A → Z) (y : A) (l : list A) :
  y ∈ order_by_desc key l ↔ y ∈ l.
Proof.
  unfold order_by_desc. induction l as [|x l IH]; simpl; [done|].
  by rewrite elem_of_insert_desc, IH, elem_of_cons.
Qed.

Lemma elem_of_left_join (bs : list Book.t) (cs : list Checkout.t)
    (b : Book.t) (oc : option Checkout.t) :
  (b, oc) ∈ Homepage.left_join bs cs ↔
  b ∈ bs
  ∧ match oc with
    | Some c => c ∈ cs ∧ Checkout.book_id c = Book.book_id b
    | None => ∀ c, c ∈ cs → Checkout.book_id c ≠ Book.book_id b
    end.
Proof.
  unfold Homepage.left_join. rewrite list_elem_of_bind. split.
  - intros (b0 & Hr & Hb0).
    destruct (filter _ cs) as [|c0 m] eqn:Hm.
    + apply list_elem_of_singleton in Hr. injection Hr as -> ->.
      split; [done|]. intros c Hc Hid.
      by apply (filter_nil_not_elem_of _ _ c Hm).
    + apply list_elem_of_fmap in Hr as (c & [= -> ->] & Hc).
      rewrite <- Hm in Hc. apply list_elem_of_filter in Hc. tauto.
  - intros [Hb Hoc]. exists b. split; [|done].
    destruct oc as [c|].
    + assert (c ∈ filter (λ c, Checkout.book_id c = Book.book_id b) cs)
        as Hc by (apply list_elem_of_filter; tauto).
      destruct (filter _ cs) as [|c0 m]; [inversion Hc|].
      apply list_elem_of_fmap. eauto.
    + rewrite filter_none by done. by left.
Qed.

(** Which books the ranking can hold: a ranked book has no checkout row
    at all or at least one inside the window. *)
Lemma trending_ranking_elem (now : datetime) (d : db) (b : Book.t) (n : Z) :
  (b, n) ∈ Homepage.trending_ranking now d →
  b ∈ books d
  ∧ ((∀ c, c ∈ checkouts d → Checkout.book_id c ≠ Book.book_id b)
     ∨ ∃ c, c ∈ checkouts d ∧ Checkout.book_id c = Book.book_id b
            ∧ strftime (now - timedelta 7) ≤ Checkout.checkout_date c).
Proof.
  unfold Homepage.trending_ranking, Homepage.group_by_book.
  rewrite elem_of_order_by_desc, list_elem_of_fmap.
  intros ([b0 oc] & [= -> _] & Hr).
  eapply elem_of_sublist in Hr; [|apply first_occurrences_sublist].
  apply list_elem_of_filter in Hr as [Hwin Hr].
  apply elem_of_left_join in Hr as [Hb Hoc]. split; [done|].
  destruct oc as [c|]; [right|by left].
  exists c. unfold Homepage.in_window in Hwin. simpl in *. tauto.
Qed.

(** A book all of whose checkouts are older than the window, and that
    has at least one, is not ranked at all. *)
Lemma trending_drops_stale_books (now : datetime) (d : db) (b : Book.t)
    (c0 : Checkout.t) :
  c0 ∈ checkouts d → Checkout.book_id c0 = Book.book_id b →
  (∀ c, c ∈ checkouts d → Checkout.book_id c = Book.book_id b →
        Checkout.checkout_date c < strftime (now - timedelta 7)) →
  ∀ n, (b, n) ∉ Homepage.trending_ranking now d.
Proof.
  intros Hc0 Hid Hstale n Hin.
  apply trending_ranking_elem in Hin as [_ [Hnone|(c & Hc & Hcb & Hle)]].
  - by apply (Hnone c0).
  - specialize (Hstale c Hc Hcb). lia.
Qed.

(** A book without any checkout row is ranked, with count 0. *)
Lemma trending_keeps_unborrowed_books (now : datetime) (d : db)
    (b : Book.t) :
  b ∈ books d →
  (∀ c, c ∈ checkouts d → Checkout.book_id c ≠ Book.book_id b) →
  ∃ b', Book.book_id b' = Book.book_id b
        ∧ (b', 0) ∈ Homepage.trending_ranking now d.
Proof.
  intros Hb Hnone.
  unfold Homepage.trending_ranking, Homepage.group_by_book.
  set (rows := filter _ (Homepage.left_join (books d) (checkouts d))).
  assert ((b, None) ∈ rows) as Hrow.
  { apply list_elem_of_filter. split; [exact I|].
    by apply elem_of_left_join. }
  assert (Book.book_id b
          ∈ (λ r : Book.t * option Checkout.t, Book.book_id r.1)
            <$> first_occurrences (λ r, Book.book_id r.1) [] rows) as Hkey.
  { apply first_occurrences_keys. split; [|inversion 1].
    apply list_elem_of_fmap. by exists (b, None). }
  apply list_elem_of_fmap in Hkey as (r & Hid & Hr).
  exists r.1. split; [done|].
  apply elem_of_order_by_desc, list_elem_of_fmap.
  exists r. split; [|done]. f_equal.
  unfold Homepage.count_checkouts. rewrite filter_none; [done|].
  intros [b1 oc] Hin [c Hsome]. simpl in Hsome. subst oc.
  apply list_elem_of_filter in Hin as [Hb1 Hin].
  apply list_elem_of_filter in Hin as [_ Hin].
  apply elem_of_left_join in Hin as [_ [Hc Hcb]].
  simpl in Hb1. apply (Hnone c Hc). congruence.
Qed.

(** C1 at the failing input.  "1984" is in the catalog and none of its
    checkouts falls in the seven days before [now], so the claim asks for
    the pair ("1984", 0) in the ranking; the ranking computed by the query
    holds "Animal Farm" only. *)
Theorem trending_omits_stale_book :
  let now := 108 * day * usec in
  book_1984 ∈ books stale_library
  ∧ filter (λ c, Checkout.book_id c = Book.book_id book_1984
                 ∧ strftime (now - timedelta 7) ≤ Checkout.checkout_date c)
      (checkouts stale_library) = []
  ∧ Homepage.trending_ranking now stale_library = [(animal_farm, 0)]
  ∧ (∀ n, (book_1984, n) ∉ Homepage.trending_ranking now stale_library)
  ∧ Homepage.get_trending_books now stale_library = [(animal_farm, 0)].
Proof.
  simpl. split; [by left|]. split; [reflexivity|].
  split; [reflexivity|]. split; [|reflexivity].
  intros n.
  apply (trending_drops_stale_books _ stale_library book_1984 stale_checkout).
  - by left.
  - reflexivity.
  - intros c Hc _. apply list_elem_of_singleton in Hc as ->.
    vm_compute. reflexivity.
Qed.

(** The ledger invariant alone is not inductive, which is why the
    reachability theorem starts from a consistent store: if a book is
    marked available while a not-returned checkout of it exists, one
    more checkout gives it two. *)
Example ledger_needs_consistency :
  let d := mkdb [alice] [book_1984]
             [Checkout.mk 1 1 1 (100 * day) None (107 * day) 0] 1 in
  ledger_invariant d
  ∧ ¬ consistent d
  ∧ active_count 1
      (step d (CheckoutBook (101 * day * usec) (101 * day)
                 (Some (Checkouts.mk_request (Some 1) (Some 1))))) = 2%nat.
Proof.
  simpl. split; [|split].
  - intros bid. unfold active_count. simpl.
    etransitivity; [apply length_filter|]. simpl. lia.
  - intros (_ & _ & Hlink).
    specialize (Hlink (Checkout.mk 1 1 1 (100 * day) None (107 * day) 0)
                  book_1984).
    discriminate Hlink; try reflexivity; by left.
  - reflexivity.
Qed.


(** * Further properties of the routes *)

(** ** Sorting and grouping *)

Lemma order_by_desc_perm {A} (key : A → Z) (l : list A) :
  order_by_desc key l ≡ₚ l.
Proof.
  unfold order_by_desc. induction l as [|x l IH]; simpl; [done|].
  rewrite <- IH at 2. generalize (foldr (insert_desc key) [] l) as m.
  clear. intros m. induction m as [|y m IH]; simpl; [done|].
  destruct (decide (key x < key y)); [|done].
  rewrite IH. apply Permutation_swap.
Qed.

Lemma insert_desc_sorted {A} (key : A → Z) (x : A) (l : list A) :
  StronglySorted (λ a b, key b ≤ key a) l →
  StronglySorted (λ a b, key b ≤ key a) (insert_desc key x l).
Proof.
  induction l as [|y l IH]; intros Hs; simpl.
  - repeat constructor.
  - apply StronglySorted_cons in Hs as [Hy Hs].
    destruct (decide (key x < key y)) as [Hlt|Hge].
    + apply StronglySorted_cons. split; [|by apply IH].
      apply Forall_forall. intros z Hz.
      apply elem_of_insert_desc in Hz as [->|Hz]; [lia|].
      by apply (proj1 (Forall_forall _ _) Hy).
    + apply StronglySorted_cons. split.
      * apply Forall_cons. split; [lia|].
        eapply Forall_impl; [exact Hy|]. simpl. intros; lia.
      * by apply StronglySorted_cons.
Qed.

Lemma order_by_desc_sorted {A} (key : A → Z) (l : list A) :
  StronglySorted (λ a b, key b ≤ key a) (order_by_desc key l).
Proof.
  unfold order_by_desc. induction l as [|x l IH]; simpl.
  - constructor.
  - by apply insert_desc_sorted.
Qed.

(** The rows before a [LIMIT] cut dominate the rows after it. *)
Lemma order_by_desc_limit {A} (key : A → Z) (n : nat) (l : list A)
    (x y : A) :
  x ∈ take n (order_by_desc key l) → y ∈ drop n (order_by_desc key l) →
  key y ≤ key x.
Proof.
  intros Hx Hy. pose proof (order_by_desc_sorted key l) as Hs.
  rewrite <- (take_drop n (order_by_desc key l)) in Hs.
  by apply (StronglySorted_app_1_elem_of _ _ _ x y) in Hs.
Qed.

Lemma filter_key_singleton {A} (key : A → Z) (l : list A) (x : A) :
  NoDup (key <$> l) → x ∈ l → filter (λ y, key y = key x) l = [x].
Proof.
  induction l as [|z l IH]; intros Hnd Hx; [inversion Hx|].
  rewrite fmap_cons in Hnd. apply NoDup_cons in Hnd as [Hz Hnd].
  apply elem_of_cons in Hx as [->|Hx].
  - rewrite filter_cons_True by done. f_equal.
    apply filter_none. intros y Hy Hk. apply Hz. rewrite <- Hk.
    by apply list_elem_of_fmap_2.
  - rewrite filter_cons_False; [by apply IH|].
    intros Hk. apply Hz. rewrite Hk. by apply list_elem_of_fmap_2.
Qed.

Lemma key_inj_on {A} (key : A → Z) (l : list A) (x y : A) :
  NoDup (key <$> l) → x ∈ l → y ∈ l → key x = key y → x = y.
Proof.
  intros Hnd Hx Hy Hk.
  assert (y ∈ filter (λ z, key z = key x) l) as Hin
    by (by apply list_elem_of_filter).
  rewrite (filter_key_singleton key l x Hnd Hx) in Hin.
  by apply list_elem_of_singleton in Hin.
Qed.

Lemma filter_all {A} (P : A → Prop) `{∀ x, Decision (P x)} (l : list A) :
  Forall P l → filter P l = l.
Proof.
  induction 1 as [|x l Hx Hl IH]; [done|].
  rewrite filter_cons_True by done. by f_equal.
Qed.

(** ** Trending, continued *)

(** The joined rows of one book. *)
Lemma left_join_rows_of (bs : list Book.t) (cs : list Checkout.t)
    (b : Book.t) :
  NoDup (Book.book_id <$> bs) → b ∈ bs →
  filter (λ r, Book.book_id r.1 = Book.book_id b) (Homepage.left_join bs cs)
  = match filter (λ c, Checkout.book_id c = Book.book_id b) cs with
    | [] => [(b, None)]
    | m => (λ c, (b, Some c)) <$> m
    end.
Proof.
  unfold Homepage.left_join.
  induction bs as [|b0 bs IH]; intros Hnd Hb; [inversion Hb|].
  rewrite fmap_cons in Hnd. apply NoDup_cons in Hnd as [Hb0 Hnd].
  rewrite bind_cons, filter_app.
  assert (∀ b1 : Book.t,
            Forall (λ r : Book.t * option Checkout.t, r.1 = b1)
              match filter (λ c, Checkout.book_id c = Book.book_id b1) cs
              with
              | [] => [(b1, None)]
              | m => (λ c, (b1, Some c)) <$> m
              end) as Hrows.
  { intros b1.
    destruct (filter (λ c, Checkout.book_id c = Book.book_id b1) cs)
      as [|c m].
    - apply Forall_forall. intros r Hr.
      apply list_elem_of_singleton in Hr. by subst.
    - apply Forall_fmap, Forall_true. done. }
  apply elem_of_cons in Hb as [->|Hb].
  - rewrite (filter_none _ (bs ≫= _)).
    + rewrite app_nil_r. apply filter_all.
      eapply Forall_impl; [apply (Hrows b0)|]. by intros r ->.
    + intros r Hr Hk. apply list_elem_of_bind in Hr as (b1 & Hr & Hb1).
      pose proof (proj1 (Forall_forall _ _) (Hrows b1) r Hr) as Hr1.
      simpl in Hr1. subst b1. apply Hb0. rewrite <- Hk.
      by apply list_elem_of_fmap_2.
  - rewrite filter_none; [by apply IH|].
    intros r Hr Hk.
    pose proof (proj1 (Forall_forall _ _) (Hrows b0) r Hr) as Hr1.
    simpl in Hr1. subst b0. apply Hb0. rewrite Hk.
    by apply list_elem_of_fmap_2.
Qed.

Lemma count_in_window_rows (cutoff : timestamp) (b : Book.t)
    (cs : list Checkout.t) :
  Homepage.count_checkouts
    (filter (Homepage.in_window cutoff)
       match filter (λ c, Checkout.book_id c = Book.book_id b) cs with
       | [] => [(b, None)]
       | m => (λ c, (b, Some c)) <$> m
       end)
  = Z.of_nat
      (length
         (filter (λ c, Checkout.book_id c = Book.book_id b
                       ∧ cutoff ≤ Checkout.checkout_date c) cs)).
Proof.
  unfold Homepage.count_checkouts. f_equal.
  assert (filter (λ c, Checkout.book_id c = Book.book_id b
                       ∧ cutoff ≤ Checkout.checkout_date c) cs
          = filter (λ c, cutoff ≤ Checkout.checkout_date c)
              (filter (λ c, Checkout.book_id c = Book.book_id b) cs)) as ->.
  { induction cs as [|c cs IH]; [done|].
    rewrite !filter_cons.
    destruct (decide (Checkout.book_id c = Book.book_id b)).
    - rewrite filter_cons.
      destruct (decide (cutoff ≤ Checkout.checkout_date c)).
      + rewrite decide_True by done. by f_equal.
      + rewrite decide_False by tauto. done.
    - rewrite decide_False by tauto. done. }
  destruct (filter (λ c, Checkout.book_id c = Book.book_id b) cs)
    as [|c0 m]; [done|].
  generalize (c0 :: m). clear. intros m.
  induction m as [|c m IH]; [done|].
  rewrite fmap_cons, !filter_cons.
  destruct (decide (cutoff ≤ Checkout.checkout_date c)) as [Hc|Hc].
  - rewrite decide_True by done. rewrite filter_cons_True by (by eexists).
    simpl. by f_equal.
  - rewrite decide_False by done. done.
Qed.

Lemma group_by_book_elem (rows : list (Book.t * option Checkout.t))
    (b : Book.t) (n : Z) :
  (b, n) ∈ Homepage.group_by_book rows →
  (∃ oc, (b, oc) ∈ rows)
  ∧ n = Homepage.count_checkouts
          (filter (λ r, Book.book_id r.1 = Book.book_id b) rows).
Proof.
  unfold Homepage.group_by_book. rewrite list_elem_of_fmap.
  intros ([b0 oc] & [= -> ->] & Hr).
  eapply elem_of_sublist in Hr; [|apply first_occurrences_sublist].
  eauto.
Qed.

Lemma filter_swap {A} (P Q : A → Prop) `{∀ x, Decision (P x)}
    `{∀ x, Decision (Q x)} (l : list A) :
  filter P (filter Q l) = filter Q (filter P l).
Proof.
  induction l as [|x l IH]; [done|].
  rewrite !filter_cons.
  destruct (decide (Q x)), (decide (P x)); rewrite ?filter_cons;
    rewrite ?decide_True, ?decide_False by done; by rewrite ?IH.
Qed.

(** X1.  [get_trending_books] answers at most five rows, by descending
    checkout count, and no ranked row that the [LIMIT 5] cuts off has a
    larger count than a row that is answered. *)
Theorem trending_top_five (now : datetime) (d : db) :
  (length (Homepage.get_trending_books now d) ≤ 5)%nat
  ∧ StronglySorted (λ x y : Book.t * Z, y.2 ≤ x.2)
      (Homepage.get_trending_books now d)
  ∧ (∀ x y, x ∈ Homepage.get_trending_books now d →
            y ∈ Homepage.trending_ranking now d →
            y ∉ Homepage.get_trending_books now d → y.2 ≤ x.2).
Proof.
  unfold Homepage.get_trending_books, Homepage.trending_ranking.
  set (g := Homepage.group_by_book _).
  split; [rewrite length_take; lia|]. split.
  - pose proof (order_by_desc_sorted snd g) as Hs.
    rewrite <- (take_drop 5 (order_by_desc snd g)) in Hs.
    by apply StronglySorted_app in Hs as (_ & Hs & _).
  - intros x y Hx Hy Hcut.
    apply (order_by_desc_limit snd 5 g x y Hx).
    rewrite <- (take_drop 5 (order_by_desc snd g)) in Hy.
    apply elem_of_app in Hy as [Hy|Hy]; [done|exact Hy].
Qed.

(** X2.  The ranking lists no book id twice, lists only books of the
    catalog, and never shows a negative count. *)
Theorem trending_ranking_books_once (now : datetime) (d : db) :
  NoDup ((λ x : Book.t * Z, Book.book_id x.1)
         <$> Homepage.trending_ranking now d)
  ∧ (∀ b n, (b, n) ∈ Homepage.trending_ranking now d →
            b ∈ books d ∧ 0 ≤ n).
Proof.
  split.
  - unfold Homepage.trending_ranking. rewrite order_by_desc_perm.
    unfold Homepage.group_by_book. rewrite <- list_fmap_compose.
    apply (first_occurrences_NoDup
             (λ r : Book.t * option Checkout.t, Book.book_id r.1)).
  - intros b n Hin. split; [by apply trending_ranking_elem in Hin as [? _]|].
    unfold Homepage.trending_ranking in Hin.
    apply elem_of_order_by_desc, group_by_book_elem in Hin as [_ ->].
    unfold Homepage.count_checkouts. lia.
Qed.

(** X3.  When book ids are unique, the count shown for a ranked book is
    the number of its checkout rows whose [checkout_date] is not before
    the cut-off, seven days before [now]. *)
Theorem trending_count_exact (now : datetime) (d : db) (b : Book.t)
    (n : Z) :
  NoDup (Book.book_id <$> books d) →
  (b, n) ∈ Homepage.trending_ranking now d →
  n = Z.of_nat
        (length
           (filter (λ c, Checkout.book_id c = Book.book_id b
                         ∧ strftime (now - timedelta 7)
                           ≤ Checkout.checkout_date c) (checkouts d))).
Proof.
  intros Hnd Hin. unfold Homepage.trending_ranking in Hin.
  apply elem_of_order_by_desc, group_by_book_elem in Hin as [[oc Hrow] ->].
  apply list_elem_of_filter in Hrow as [_ Hrow].
  apply elem_of_left_join in Hrow as [Hb _].
  rewrite filter_swap, (left_join_rows_of _ _ _ Hnd Hb).
  apply count_in_window_rows.
Qed.

Lemma trending_count_exact_witness :
  1 = Z.of_nat
        (length
           (filter (λ c, Checkout.book_id c = Book.book_id book_1984
                         ∧ strftime (106 * day * usec - timedelta 7)
                           ≤ Checkout.checkout_date c)
              (checkouts stale_library))).
Proof.
  apply (trending_count_exact (106 * day * usec) stale_library book_1984 1).
  - apply (bool_decide_unpack _). vm_compute. exact I.
  - apply (bool_decide_unpack _). vm_compute. exact I.
Defined.

(** X4.  When book ids are unique, a book of the catalog is ranked if and
    only if it has no checkout row at all or at least one checkout row
    inside the window. *)
Theorem trending_ranked_iff (now : datetime) (d : db) (b : Book.t) :
  NoDup (Book.book_id <$> books d) →
  b ∈ books d →
  (∃ n, (b, n) ∈ Homepage.trending_ranking now d)
  ↔ (∀ c, c ∈ checkouts d → Checkout.book_id c ≠ Book.book_id b)
    ∨ (∃ c, c ∈ checkouts d ∧ Checkout.book_id c = Book.book_id b
            ∧ strftime (now - timedelta 7) ≤ Checkout.checkout_date c).
Proof.
  intros Hnd Hb. split.
  - intros [n Hin]. by apply trending_ranking_elem in Hin as [_ ?].
  - intros Hcase.
    unfold Homepage.trending_ranking, Homepage.group_by_book.
    set (rows := filter (Homepage.in_window (strftime (now - timedelta 7)))
                   (Homepage.left_join (books d) (checkouts d))).
    assert (∃ oc, (b, oc) ∈ rows) as [oc Hrow].
    { destruct Hcase as [Hnone|(c & Hc & Hcb & Hle)].
      - exists None. apply list_elem_of_filter. split; [exact I|].
        by apply elem_of_left_join.
      - exists (Some c). apply list_elem_of_filter. split; [exact Hle|].
        by apply elem_of_left_join. }
    assert (Book.book_id b
            ∈ (λ r : Book.t * option Checkout.t, Book.book_id r.1)
              <$> first_occurrences
                    (λ r : Book.t * option Checkout.t, Book.book_id r.1)
                    [] rows) as Hkey.
    { apply first_occurrences_keys. split; [|inversion 1].
      apply list_elem_of_fmap. by exists (b, oc). }
    apply list_elem_of_fmap in Hkey as ([b' oc'] & Hid & Hr).
    assert (b' = b) as ->.
    { pose proof Hr as Hr'.
      eapply elem_of_sublist in Hr'; [|apply first_occurrences_sublist].
      apply list_elem_of_filter in Hr' as [_ Hr'].
      apply elem_of_left_join in Hr' as [Hb' _].
      symmetry. by apply (key_inj_on Book.book_id (books d)). }
    eexists. apply elem_of_order_by_desc, list_elem_of_fmap.
    exists (b, oc'). split; [reflexivity|done].
Qed.

Lemma trending_ranked_iff_witness :
  (∃ n, (animal_farm, n)
        ∈ Homepage.trending_ranking (108 * day * usec) stale_library)
  ↔ (∀ c, c ∈ checkouts stale_library →
          Checkout.book_id c ≠ Book.book_id animal_farm)
    ∨ (∃ c, c ∈ checkouts stale_library
            ∧ Checkout.book_id c = Book.book_id animal_farm
            ∧ strftime (108 * day * usec - timedelta 7)
              ≤ Checkout.checkout_date c).
Proof.
  apply (trending_ranked_iff (108 * day * usec) stale_library animal_farm).
  - apply (bool_decide_unpack _). vm_compute. exact I.
  - apply (bool_decide_unpack _). vm_compute. exact I.
Defined.

(** ** Recommendations, continued *)

Lemma capped_unique_props (l : list Book.t) :
  NoDup (Book.book_id <$> take 10 (remove_duplicates l))
  ∧ (∀ b, b ∈ take 10 (remove_duplicates l) → b ∈ l)
  ∧ (length (take 10 (remove_duplicates l)) ≤ 10)%nat.
Proof.
  rewrite remove_duplicates_first_occurrences. split; [|split].
  - rewrite fmap_take. eapply sublist_NoDup; [|apply sublist_take].
    apply (first_occurrences_NoDup Book.book_id).
  - intros b Hb. apply subseteq_take in Hb.
    eapply elem_of_sublist; [exact Hb|apply first_occurrences_sublist].
  - rewrite length_take. lia.
Qed.

Lemma recent_checkouts_rows (user_id : Z) (d : db) :
  Homepage.book_id <$> Homepage.recent_checkouts user_id d
  = (λ r : Checkout.t * Book.t, Checkout.book_id r.1)
    <$> take 3
          (order_by_desc (λ r : Checkout.t * Book.t, Checkout.checkout_date r.1)
             (filter (λ r : Checkout.t * Book.t,
                        Checkout.user_id r.1 = user_id)
                (Homepage.join (checkouts d) (books d)))).
Proof.
  unfold Homepage.recent_checkouts. by rewrite <- list_fmap_compose.
Qed.

(** X5.  [by_year] holds at most 10 books, no book id twice and no seed
    book; every book in it is a catalog book published in the (non-null,
    non-zero) year of one of the seed rows. *)
Theorem by_year_props
    (list_set : ∀ A, EqDecision A → list A → list A) (user_id : Z) (d : db) :
  (∀ A (H : EqDecision A) (l : list A) x, x ∈ list_set A H l → x ∈ l) →
  let rc := Homepage.recent_checkouts user_id d in
  let r := Homepage.get_user_recommendations list_set user_id d in
  NoDup (Book.book_id <$> Homepage.by_year r)
  ∧ (length (Homepage.by_year r) ≤ 10)%nat
  ∧ (∀ b, b ∈ Homepage.by_year r →
       b ∈ books d
       ∧ (Book.book_id b ∉ Homepage.book_id <$> rc)
       ∧ ∃ c y, c ∈ rc ∧ y ≠ 0
                ∧ Homepage.year_published c = Some y
                ∧ Book.year_published b = Some y).
Proof.
  intros Hset rc r. unfold r, Homepage.get_user_recommendations. fold rc.
  destruct rc as [|c0 rc'] eqn:Hrc.
  { simpl. split; [constructor|]. split; [lia|]. intros b Hb. inversion Hb. }
  rewrite <- Hrc. clear Hrc c0 rc'. cbn [Homepage.by_year].
  destruct (capped_unique_props
              (extend_each
                 (Homepage.books_by_year (Homepage.book_id <$> rc) d)
                 (Homepage.recent_years list_set rc)))
    as (Hnd & Hsub & Hlen).
  split; [exact Hnd|]. split; [exact Hlen|].
  intros b Hb. apply Hsub in Hb. rewrite extend_each_bind in Hb.
  apply list_elem_of_bind in Hb as (y & Hb & Hy).
  unfold Homepage.books_by_year in Hb. apply subseteq_take in Hb.
  apply list_elem_of_filter in Hb as [[Hby Hseed] Hin].
  split; [exact Hin|]. split; [exact Hseed|].
  unfold Homepage.recent_years in Hy. apply Hset in Hy.
  apply list_elem_of_omap in Hy as (c & Hc & Hcy).
  apply list_elem_of_filter in Hc as [[_ Hnz] Hc].
  exists c, y. repeat split; try done. intros ->. by apply Hnz.
Qed.

Lemma by_year_props_witness :
  NoDup (Book.book_id
         <$> Homepage.by_year
               (Homepage.get_user_recommendations first_seen_set 1
                  orwell_reader))
  ∧ (length
       (Homepage.by_year
          (Homepage.get_user_recommendations first_seen_set 1
             orwell_reader)) ≤ 10)%nat
  ∧ (∀ b, b ∈ Homepage.by_year
                (Homepage.get_user_recommendations first_seen_set 1
                   orwell_reader) →
       b ∈ books orwell_reader
       ∧ (Book.book_id b
          ∉ Homepage.book_id <$> Homepage.recent_checkouts 1 orwell_reader)
       ∧ ∃ c y, c ∈ Homepage.recent_checkouts 1 orwell_reader ∧ y ≠ 0
                ∧ Homepage.year_published c = Some y
                ∧ Book.year_published b = Some y).
Proof.
  apply (by_year_props first_seen_set 1 orwell_reader).
  intros A H l x. apply first_seen_set_enumerates.
Defined.

(** X6.  [similar_users] holds at most 10 books, no book id twice and no
    seed book; every book in it is a catalog book that was checked out by
    some other user who also checked out one of the seed books. *)
Theorem similar_users_props
    (list_set : ∀ A, EqDecision A → list A → list A) (user_id : Z) (d : db) :
  let rc := Homepage.recent_checkouts user_id d in
  let r := Homepage.get_user_recommendations list_set user_id d in
  NoDup (Book.book_id <$> Homepage.similar_users r)
  ∧ (length (Homepage.similar_users r) ≤ 10)%nat
  ∧ (∀ b, b ∈ Homepage.similar_users r →
       b ∈ books d
       ∧ (Book.book_id b ∉ Homepage.book_id <$> rc)
       ∧ ∃ c1 c2, c1 ∈ checkouts d ∧ c2 ∈ checkouts d
                  ∧ Checkout.user_id c1 = Checkout.user_id c2
                  ∧ Checkout.user_id c1 ≠ user_id
                  ∧ Checkout.book_id c1 ∈ Homepage.book_id <$> rc
                  ∧ Checkout.book_id c2 = Book.book_id b).
Proof.
  intros rc r. unfold r, Homepage.get_user_recommendations. fold rc.
  destruct rc as [|c0 rc'] eqn:Hrc.
  { simpl. split; [constructor|]. split; [lia|]. intros b Hb. inversion Hb. }
  rewrite <- Hrc. clear Hrc c0 rc'. cbn [Homepage.similar_users].
  destruct (capped_unique_props
              (extend_each
                 (Homepage.books_of_similar_user
                    (Homepage.book_id <$> rc) d)
                 (take 5
                    (Homepage.find_similar_users
                       (Homepage.book_id <$> rc) user_id d))))
    as (Hnd & Hsub & Hlen).
  split; [exact Hnd|]. split; [exact Hlen|].
  intros b Hb. apply Hsub in Hb. rewrite extend_each_bind in Hb.
  apply list_elem_of_bind in Hb as (u & Hb & Hu).
  apply subseteq_take in Hu. unfold Homepage.find_similar_users in Hu.
  apply elem_of_distinct, list_elem_of_fmap in Hu as (c1 & -> & Hc1).
  apply list_elem_of_filter in Hc1 as [[Hseed1 Hother] Hc1].
  unfold Homepage.books_of_similar_user in Hb. apply subseteq_take in Hb.
  apply elem_of_distinct, list_elem_of_fmap in Hb as ([c2 b2] & -> & Hr).
  apply list_elem_of_filter in Hr as [[Hu2 Hseed2] Hr].
  apply elem_of_join in Hr as (Hc2 & Hb2 & Hid). simpl in *.
  split; [exact Hb2|]. split; [by rewrite Hid|].
  exists c1, c2. repeat split; done.
Qed.

(** X7.  When the answer names seed books, there are one to three of
    them; each is the book of a checkout of the user, and no checkout of
    the user for a catalog book outside the seeds is more recent than
    that checkout. *)
Theorem seeds_are_most_recent
    (list_set : ∀ A, EqDecision A → list A → list A) (user_id : Z) (d : db)
    (ids : list Z) :
  Homepage.based_on_books
    (Homepage.get_user_recommendations list_set user_id d) = Some ids →
  (1 ≤ length ids ≤ 3)%nat
  ∧ ∀ k, k ∈ ids →
      ∃ c, c ∈ checkouts d ∧ Checkout.user_id c = user_id
           ∧ Checkout.book_id c = k
           ∧ k ∈ Book.book_id <$> books d
           ∧ ∀ c', c' ∈ checkouts d → Checkout.user_id c' = user_id →
                   Checkout.book_id c' ∈ Book.book_id <$> books d →
                   Checkout.book_id c' ∉ ids →
                   Checkout.checkout_date c' ≤ Checkout.checkout_date c.
Proof.
  unfold Homepage.get_user_recommendations.
  destruct (Homepage.recent_checkouts user_id d) as [|c0 rc'] eqn:Hrc;
    [discriminate|].
  cbn [Homepage.based_on_books]. rewrite <- Hrc.
  intros [= <-]. split.
  { rewrite length_fmap. split; [rewrite Hrc; simpl; lia|].
    unfold Homepage.recent_checkouts.
    rewrite length_fmap, length_take. lia. }
  clear Hrc c0 rc'. rewrite recent_checkouts_rows.
  set (date := λ r : Checkout.t * Book.t, Checkout.checkout_date r.1).
  set (rows := filter (λ r : Checkout.t * Book.t,
                         Checkout.user_id r.1 = user_id)
                 (Homepage.join (checkouts d) (books d))).
  intros k Hk. apply list_elem_of_fmap in Hk as ([c b] & -> & Hr).
  pose proof Hr as Hr'. apply subseteq_take in Hr'.
  apply elem_of_order_by_desc, list_elem_of_filter in Hr' as [Hu Hj].
  apply elem_of_join in Hj as (Hc & Hb & Hid). simpl in *.
  exists c. split; [done|]. split; [done|]. split; [done|].
  split; [rewrite <- Hid; by apply list_elem_of_fmap_2|].
  intros c' Hc' Hu' Hbook Hout.
  apply list_elem_of_fmap in Hbook as (b' & Hid' & Hb').
  assert ((c', b') ∈ order_by_desc date rows) as Hrow.
  { apply elem_of_order_by_desc, list_elem_of_filter. split; [done|].
    by apply elem_of_join. }
  rewrite <- (take_drop 3 (order_by_desc date rows)) in Hrow.
  apply elem_of_app in Hrow as [Hrow|Hrow].
  - exfalso. apply Hout. apply list_elem_of_fmap. by exists (c', b').
  - apply (order_by_desc_limit date 3 rows (c, b) (c', b') Hr Hrow).
Qed.

Lemma seeds_are_most_recent_witness :
  (1 ≤ length [2; 1] ≤ 3)%nat
  ∧ ∀ k, k ∈ [2; 1] →
      ∃ c, c ∈ checkouts orwell_reader ∧ Checkout.user_id c = 1
           ∧ Checkout.book_id c = k
           ∧ k ∈ Book.book_id <$> books orwell_reader
           ∧ ∀ c', c' ∈ checkouts orwell_reader → Checkout.user_id c' = 1 →
                   Checkout.book_id c' ∈ Book.book_id <$> books orwell_reader →
                   Checkout.book_id c' ∉ [2; 1] →
                   Checkout.checkout_date c' ≤ Checkout.checkout_date c.
Proof.
  apply (seeds_are_most_recent first_seen_set 1 orwell_reader [2; 1]).
  reflexivity.
Defined.

(** ** The checkout engine, continued *)

Lemma filter_update_checkouts (k cid : Z) (f : Checkout.t → Checkout.t)
    (cs : list Checkout.t) :
  (∀ c, Checkout.checkout_id (f c) = Checkout.checkout_id c) →
  filter (λ c, Checkout.checkout_id c = k) (update_checkouts cid f cs)
  = update_checkouts cid f (filter (λ c, Checkout.checkout_id c = k) cs).
Proof.
  intros Hkey. unfold update_checkouts.
  induction cs as [|c cs IH]; [reflexivity|].
  rewrite fmap_cons, !filter_cons, IH.
  destruct (decide (Checkout.checkout_id c = cid)) as [Hc|Hc].
  - rewrite Hkey. destruct (decide (Checkout.checkout_id c = k)); [|done].
    rewrite fmap_cons. by rewrite decide_True.
  - destruct (decide (Checkout.checkout_id c = k)); [|done].
    rewrite fmap_cons. by rewrite decide_False.
Qed.

Lemma return_book_returned_inv (now : datetime) (cid cid' bid : Z)
    (rd : timestamp) (d d' : db) :
  Checkouts.return_book now cid d = (Checkouts.Returned cid' bid rd, d') →
  ∃ c, select_checkout cid d = Some c ∧ Checkout.is_returned c ≠ 1
       ∧ cid' = cid ∧ bid = Checkout.book_id c ∧ rd = strftime now
       ∧ d' = mkdb (users d)
                (update_books (Checkout.book_id c) Checkouts.set_available
                   (books d))
                (update_checkouts cid (Checkouts.set_returned (strftime now))
                   (checkouts d))
                (seq_checkouts d).
Proof.
  unfold Checkouts.return_book.
  destruct (select_checkout cid d) as [c|]; [|discriminate].
  destruct (decide (Checkout.is_returned c = 1)); [discriminate|].
  intros [= <- <- <- <-]. eauto 8.
Qed.

(** X8.  After a successful checkout of a book, a further checkout of the
    same book by any existing user is refused with 409; the answer
    carries the due date of the first checkout and the store is left as
    the first checkout committed it. *)
Theorem second_checkout_conflicts (now1 now2 : datetime)
    (cts1 cts2 : timestamp) (book_id u1 u2 : Z) (d : db)
    (usr1 usr2 : User.t) (book : Book.t) :
  select_user u1 d = Some usr1 →
  select_user u2 d = Some usr2 →
  select_book book_id d = Some book →
  Book.is_booked book ≠ Some 1 →
  let d1 :=
    (Checkouts.checkout_book now1 cts1
       (Some (Checkouts.mk_request (Some book_id) (Some u1))) d).2 in
  Checkouts.checkout_book now2 cts2
    (Some (Checkouts.mk_request (Some book_id) (Some u2))) d1
  = (Checkouts.Conflict "Book is not available"
       "This book is currently checked out by another user"
       (Some (strftime now1 + 7 * 86400)), d1).
Proof.
  intros Hu1 Hu2 Hb Hfree. cbv zeta.
  rewrite (checkout_book_success now1 cts1 book_id u1 d usr1 book Hu1 Hb Hfree).
  cbn [snd]. set (d1 := mkdb _ _ _ _).
  assert (select_user u2 d1 = Some usr2) as Hu2' by exact Hu2.
  assert (select_book book_id d1
          = Some (Checkouts.set_checked_out u1
                    (strftime (now1 + timedelta 7)) book)) as Hb'.
  { unfold d1. rewrite select_book_update, Hb by done. simpl.
    destruct (select_book_key _ _ _ Hb) as [_ Hk].
    by rewrite decide_True. }
  unfold Checkouts.checkout_book. simpl. rewrite Hu2', Hb'.
  rewrite decide_True by done. simpl. by rewrite strftime_add_days.
Qed.

Lemma second_checkout_conflicts_witness :
  Checkouts.checkout_book (101 * day * usec) (101 * day)
    (Some (Checkouts.mk_request (Some 1) (Some 2))) lending_library
  = (Checkouts.Conflict "Book is not available"
       "This book is currently checked out by another user"
       (Some (strftime (100 * day * usec) + 7 * 86400)), lending_library).
Proof.
  apply (second_checkout_conflicts (100 * day * usec) (101 * day * usec)
           (100 * day) (101 * day) 1 1 2 library alice bob book_1984).
  - reflexivity.
  - reflexivity.
  - reflexivity.
  - discriminate.
Defined.

(** X9.  Once a return has succeeded, every further return of the same
    checkout id is refused with 400 and writes nothing. *)
Theorem second_return_refused (now1 now2 : datetime) (cid cid' bid : Z)
    (rd : timestamp) (d d' : db) :
  Checkouts.return_book now1 cid d = (Checkouts.Returned cid' bid rd, d') →
  Checkouts.return_book now2 cid d'
  = (Checkouts.BadRequest "Book has already been returned", d').
Proof.
  intros Hret.
  apply return_book_returned_inv in Hret
    as (c & Hc & Hopen & -> & -> & -> & ->).
  unfold Checkouts.return_book.
  assert (select_checkout cid
            (mkdb (users d)
               (update_books (Checkout.book_id c) Checkouts.set_available
                  (books d))
               (update_checkouts cid
                  (Checkouts.set_returned (strftime now1)) (checkouts d))
               (seq_checkouts d))
          = Some (Checkouts.set_returned (strftime now1) c)) as ->.
  { unfold select_checkout in *. simpl.
    rewrite filter_update_checkouts by done.
    destruct (filter (λ c0, Checkout.checkout_id c0 = cid) (checkouts d))
      as [|c1 m] eqn:Hm; [discriminate|].
    injection Hc as ->. simpl.
    assert (Checkout.checkout_id c = cid) as Hid.
    { assert (c ∈ filter (λ c0, Checkout.checkout_id c0 = cid) (checkouts d))
        as Hin by (rewrite Hm; by left).
      by apply list_elem_of_filter in Hin as [? _]. }
    by rewrite decide_True. }
  by rewrite decide_True.
Qed.

Lemma second_return_refused_witness :
  Checkouts.return_book (103 * day * usec) 1
    (Checkouts.return_book (102 * day * usec) 1 lending_library).2
  = (Checkouts.BadRequest "Book has already been returned",
     (Checkouts.return_book (102 * day * usec) 1 lending_library).2).
Proof.
  apply (second_return_refused (102 * day * usec) (103 * day * usec) 1 1 1
           (102 * day) lending_library).
  reflexivity.
Defined.

(** ** What no request changes *)

Lemma update_books_catalog (bid : Z) (f : Book.t → Book.t)
    (bs : list Book.t) :
  (∀ b, catalog_entry (f b) = catalog_entry b) →
  catalog_entry <$> update_books bid f bs = catalog_entry <$> bs.
Proof.
  intros Hf. unfold update_books. rewrite <- list_fmap_compose.
  apply list_fmap_ext. intros i b _. simpl.
  destruct (decide (Book.book_id b = bid)); auto.
Qed.

Lemma update_checkouts_ledger (cid : Z) (f : Checkout.t → Checkout.t)
    (cs : list Checkout.t) :
  (∀ c, ledger_entry (f c) = ledger_entry c) →
  ledger_entry <$> update_checkouts cid f cs = ledger_entry <$> cs.
Proof.
  intros Hf. unfold update_checkouts. rewrite <- list_fmap_compose.
  apply list_fmap_ext. intros i c _. simpl.
  destruct (decide (Checkout.checkout_id c = cid)); auto.
Qed.

Lemma update_book_tables (bid : Z) (data : option Books.patch) (d : db) :
  (Books.update_book bid data d).2 = d
  ∨ (Books.update_book bid data d).2
    = mkdb (users d)
        (update_books bid
           (Books.apply_patch (default (Books.mk_patch None None None) data))
           (books d))
        (checkouts d) (seq_checkouts d).
Proof.
  unfold Books.update_book. destruct data as [data|]; [|by left].
  destruct (select_book bid d); [|by left].
  destruct (Books.patch_is_booked data), (Books.patch_booked_by_user_id data),
    (Books.patch_due_date data); auto.
Qed.

Lemma step_catalog (d : db) (o : op) :
  catalog_entry <$> books (step d o) = catalog_entry <$> books d.
Proof.
  destruct o as [now cts data|now cid|uid|bid data]; simpl.
  - destruct (checkout_book_cases now cts data d)
      as [->|(b & u & book & _ & _ & ->)]; [done|].
    simpl. by apply update_books_catalog.
  - destruct (return_book_cases now cid d) as [->|(c & _ & _ & ->)]; [done|].
    simpl. by apply update_books_catalog.
  - by rewrite (proj1 (delete_user_tables uid d)).
  - destruct (update_book_tables bid data d) as [->| ->]; [done|].
    simpl. by apply update_books_catalog.
Qed.

Lemma step_ledger (d : db) (o : op) :
  ledger_entry <$> checkouts d
  `prefix_of` ledger_entry <$> checkouts (step d o).
Proof.
  destruct o as [now cts data|now cid|uid|bid data]; simpl.
  - destruct (checkout_book_cases now cts data d)
      as [->|(b & u & book & _ & _ & ->)]; [done|].
    simpl. rewrite fmap_app. by apply prefix_app_r.
  - destruct (return_book_cases now cid d) as [->|(c & _ & _ & ->)]; [done|].
    simpl. by rewrite update_checkouts_ledger.
  - by rewrite (proj2 (delete_user_tables uid d)).
  - by destruct (update_book_tables bid data d) as [->| ->].
Qed.

(** X10.  The ledger is append-only: whatever requests are served, the
    checkout rows present before are still there, in the same order and
    with the same id, book, user, checkout date and due date; new rows
    only come after them. *)
Theorem ledger_append_only (ops : list op) (d : db) :
  ledger_entry <$> checkouts d
  `prefix_of` ledger_entry <$> checkouts (run ops d).
Proof.
  unfold run. revert d. induction ops as [|o ops IH]; intros d; [done|].
  simpl. etransitivity; [apply (step_ledger d o)|apply IH].
Qed.

(** X11.  No request adds, removes, reorders or edits catalog data: the
    list of book ids, ISBNs, titles, authors, years, genres and image
    URLs is the same after any sequence of requests. *)
Theorem catalog_never_changes (ops : list op) (d : db) :
  catalog_entry <$> books (run ops d) = catalog_entry <$> books d.
Proof.
  unfold run. revert d. induction ops as [|o ops IH]; intros d; [done|].
  simpl. by rewrite IH, step_catalog.
Qed.

Lemma book_ids_catalog (bs : list Book.t) :
  Book.book_id <$> bs = (λ e, e.1.1.1.1.1.1) <$> (catalog_entry <$> bs).
Proof. by rewrite <- list_fmap_compose. Qed.

Lemma step_book_ids (d : db) (o : op) :
  Book.book_id <$> books (step d o) = Book.book_id <$> books d.
Proof. by rewrite !book_ids_catalog, step_catalog. Qed.

Lemma step_keyed (d : db) (o : op) : keyed d → keyed (step d o).
Proof.
  intros (Hbooks & Hcos & Href). unfold keyed. rewrite step_book_ids.
  split; [exact Hbooks|].
  destruct o as [now cts data|now cid|uid|bid data]; simpl.
  - destruct (checkout_book_cases now cts data d)
      as [->|(b & u & book & Hb & _ & ->)]; [done|].
    simpl. split.
    + rewrite fmap_app. apply NoDup_app. split; [done|]. split.
      * intros x Hx Hnew. apply list_elem_of_singleton in Hnew.
        apply (next_rowid_gt (seq_checkouts d)) in Hx. simpl in Hnew. lia.
      * apply NoDup_singleton.
    + intros c Hc. apply elem_of_app in Hc as [Hc|Hc]; [auto|].
      apply list_elem_of_singleton in Hc as ->. simpl.
      destruct (select_book_key _ _ _ Hb) as [Hin <-].
      by apply list_elem_of_fmap_2.
  - destruct (return_book_cases now cid d) as [->|(c & _ & _ & ->)]; [done|].
    simpl.
    assert (∀ cs, Checkout.checkout_id
                  <$> update_checkouts cid
                        (Checkouts.set_returned (strftime now)) cs
                  = Checkout.checkout_id <$> cs) as Hids.
    { intros cs. unfold update_checkouts. rewrite <- list_fmap_compose.
      apply list_fmap_ext. intros i c1 _. simpl.
      by destruct (decide (Checkout.checkout_id c1 = cid)). }
    rewrite Hids. split; [done|]. intros c1 Hc1.
    apply elem_of_update_checkouts in Hc1 as (c2 & Hc2 & ->).
    destruct (decide (Checkout.checkout_id c2 = cid)); simpl; auto.
  - destruct (delete_user_tables uid d) as [_ ->]. auto.
  - destruct (update_book_tables bid data d) as [->| ->]; auto.
Qed.

(** X12.  Uniqueness of book ids and of checkout ids, and the fact that
    every checkout row references a book of the catalog, survive every
    sequence of requests. *)
Theorem keys_preserved (ops : list op) (d : db) :
  keyed d → keyed (run ops d).
Proof.
  unfold run. revert d.
  induction ops as [|o ops IH]; intros d Hd; [exact Hd|].
  simpl. by apply IH, step_keyed.
Qed.

Lemma library_keyed : keyed library.
Proof.
  split; [|split].
  - apply (bool_decide_unpack _). vm_compute. exact I.
  - constructor.
  - intros c Hc. inversion Hc.
Qed.

Lemma keys_preserved_witness : keyed (run engine_ops library).
Proof.
  apply (keys_preserved engine_ops library). exact library_keyed.
Defined.

(** X13.  An error answer never writes: when a checkout, return,
    delete-user or book-update request is answered with a status of 400
    or more, the store after the request is the store before it. *)
Theorem errors_write_nothing (d : db) (o : op) :
  400 ≤ op_status d o → step d o = d.
Proof.
  destruct o as [now cts data|now cid|uid|bid data]; simpl.
  - unfold Checkouts.checkout_book.
    destruct data as [[[b|] [u|]]|]; simpl; try done.
    destruct (select_user u d); [|done].
    destruct (select_book b d) as [book|]; [|done].
    destruct (decide (Book.is_booked book = Some 1)); [done|].
    simpl. lia.
  - unfold Checkouts.return_book.
    destruct (select_checkout cid d) as [c|]; [|done].
    destruct (decide (Checkout.is_returned c = 1)); [done|]. simpl. lia.
  - unfold Users.delete_user. destruct (select_user uid d); [|done].
    simpl. lia.
  - unfold Books.update_book. destruct data as [data|]; [|done].
    destruct (select_book bid d); [|done].
    destruct (Books.patch_is_booked data),
      (Books.patch_booked_by_user_id data), (Books.patch_due_date data);
      simpl; try done; lia.
Qed.

Lemma errors_write_nothing_witness :
  step lending_library
    (CheckoutBook (101 * day * usec) (101 * day)
       (Some (Checkouts.mk_request (Some 1) (Some 2))))
  = lending_library.
Proof.
  apply (errors_write_nothing lending_library).
  vm_compute. discriminate.
Defined.

(** ** Agreement of the book flags with the ledger *)

Lemma step_booked_by_ledger (d : db) (o : op) :
  engine_op o → keyed d → booked_by_ledger d → booked_by_ledger (step d o).
Proof.
  intros Ho (_ & Hids & _) Hagree.
  destruct o as [now cts data|now cid|uid|bid data]; simpl; try done.
  - destruct (checkout_book_cases now cts data d)
      as [->|(bid & u & book & _ & _ & ->)]; [done|].
    intros b Hb Hbooked. simpl in Hb.
    apply elem_of_update_books in Hb as (b0 & Hb0 & ->).
    destruct (decide (Book.book_id b0 = bid)) as [Hid|Hid].
    + eexists. split; [simpl; apply elem_of_app; right; by left|].
      by repeat split.
    + destruct (Hagree b0 Hb0 Hbooked) as (c & Hc & Hact & Hholder & Hdue).
      exists c. split; [simpl; apply elem_of_app; by left|done].
  - destruct (return_book_cases now cid d)
      as [->|(c0 & Hc0 & _ & ->)]; [done|].
    destruct (select_checkout_key _ _ _ Hc0) as [Hc0in Hc0id].
    intros b Hb Hbooked. simpl in Hb.
    apply elem_of_update_books in Hb as (b0 & Hb0 & ->).
    destruct (decide (Book.book_id b0 = Checkout.book_id c0)) as [Hid|Hid];
      [discriminate|].
    destruct (Hagree b0 Hb0 Hbooked) as (c & Hc & [Hcb Hcr] & Hholder & Hdue).
    exists c. split; [|done]. simpl.
    apply elem_of_update_checkouts. exists c. split; [done|].
    rewrite decide_False; [done|]. intros Hsame. apply Hid.
    rewrite <- Hcb. f_equal.
    apply (key_inj_on Checkout.checkout_id (checkouts d)); auto. congruence.
Qed.

(** X14.  Starting from a store with unique keys that is consistent and
    whose booked books are backed by the ledger, after any sequence of
    checkout and return requests a book is marked booked exactly when it
    has a not-returned checkout row; that row then names the book's
    holder and due date. *)
Theorem booked_iff_open_checkout (ops : list op) (d : db) :
  Forall engine_op ops →
  keyed d → consistent d → booked_by_ledger d →
  ∀ b, b ∈ books (run ops d) →
    (Book.is_booked b = Some 1
     ↔ ∃ c, c ∈ checkouts (run ops d) ∧ active (Book.book_id b) c)
    ∧ (Book.is_booked b = Some 1 →
       ∃ c, c ∈ checkouts (run ops d) ∧ active (Book.book_id b) c
            ∧ Book.booked_by_user_id b = Some (Checkout.user_id c)
            ∧ Book.due_date b = Some (Checkout.due_date c)).
Proof.
  intros Hops Hk Hc Hagree.
  assert (keyed (run ops d) ∧ consistent (run ops d)
          ∧ booked_by_ledger (run ops d)) as (_ & Hc' & Hagree').
  { unfold run. revert d Hk Hc Hagree.
    induction Hops as [|o ops Ho Hops IH]; intros d Hk Hc Hagree; [done|].
    simpl. apply IH.
    - by apply step_keyed.
    - by apply step_consistent.
    - by apply step_booked_by_ledger. }
  intros b Hb. split; [split|].
  - intros Hbooked.
    destruct (Hagree' b Hb Hbooked) as (c & Hin & Hact & _). eauto.
  - intros (c & Hin & Hcb & Hcr).
    destruct Hc' as (_ & _ & Hlink). by apply (Hlink c b).
  - by apply Hagree'.
Qed.

Lemma library_booked_by_ledger : booked_by_ledger library.
Proof.
  intros b Hb Hbooked. exfalso. simpl in Hb.
  repeat (apply elem_of_cons in Hb as [->|Hb]; [discriminate|]).
  inversion Hb.
Qed.

Lemma booked_iff_open_checkout_witness :
  (Book.is_booked rebooked_1984 = Some 1
   ↔ ∃ c, c ∈ checkouts (run engine_ops library)
          ∧ active (Book.book_id rebooked_1984) c)
  ∧ (Book.is_booked rebooked_1984 = Some 1 →
     ∃ c, c ∈ checkouts (run engine_ops library)
          ∧ active (Book.book_id rebooked_1984) c
          ∧ Book.booked_by_user_id rebooked_1984
            = Some (Checkout.user_id c)
          ∧ Book.due_date rebooked_1984 = Some (Checkout.due_date c)).
Proof.
  apply (booked_iff_open_checkout engine_ops library).
  - repeat (apply Forall_cons_2; [exact I|]). apply Forall_nil_2.
  - exact library_keyed.
  - exact library_consistent.
  - exact library_booked_by_ledger.
  - apply (bool_decide_unpack _). vm_compute. exact I.
Defined.

(** ** The listing routes *)

Lemma join_one_book (cs : list Checkout.t) (bs : list Book.t) :
  NoDup (Book.book_id <$> bs) →
  (∀ c, c ∈ cs → Checkout.book_id c ∈ Book.book_id <$> bs) →
  fst <$> Homepage.join cs bs = cs.
Proof.
  intros Hnd Href. unfold Homepage.join.
  induction cs as [|c cs IH]; [done|].
  rewrite bind_cons, fmap_app, IH by (intros; apply Href; by right).
  destruct (proj1 (list_elem_of_fmap _ _ _) (Href c ltac:(by left)))
    as (b & Hid & Hb).
  rewrite (list_filter_iff _ (λ b', Book.book_id b' = Book.book_id b))
    by (intros; by rewrite Hid).
  by rewrite (filter_key_singleton Book.book_id bs b Hnd Hb).
Qed.

Lemma fmap_filter_fst {A B} (P : A → Prop) `{∀ x, Decision (P x)}
    (l : list (A * B)) :
  fst <$> filter (λ r, P r.1) l = filter P (fst <$> l).
Proof.
  induction l as [|r l IH]; [done|].
  rewrite fmap_cons, !filter_cons.
  destruct (decide (P r.1)); rewrite ?fmap_cons; by rewrite IH.
Qed.

Lemma length_filter_split {A} (P Q R : A → Prop) `{∀ x, Decision (P x)}
    `{∀ x, Decision (Q x)} `{∀ x, Decision (R x)} (l : list A) :
  (∀ x, x ∈ l → (P x ↔ Q x ∨ R x) ∧ ¬ (Q x ∧ R x)) →
  length (filter P l) = (length (filter Q l) + length (filter R l))%nat.
Proof.
  induction l as [|x l IH]; intros Hsplit; [done|].
  assert ((P x ↔ Q x ∨ R x) ∧ ¬ (Q x ∧ R x)) as [Hx Hdisj]
    by (apply Hsplit; by left).
  assert (length (filter P l)
          = (length (filter Q l) + length (filter R l))%nat) as IH'
    by (apply IH; intros; apply Hsplit; by right).
  rewrite !filter_cons.
  repeat case_decide; simpl; try lia; exfalso; tauto.
Qed.

(** X15.  With unique book ids and every checkout referencing a catalog
    book, [get_user_checkout_history] lists each checkout row of the
    user exactly once, most recent first, and [total] is the number of
    those rows. *)
Theorem history_complete (user_id : Z) (d : db) :
  keyed d →
  let answer := Listing.get_user_checkout_history user_id d in
  Listing.h_checkout <$> answer.1
  ≡ₚ filter (λ c, Checkout.user_id c = user_id) (checkouts d)
  ∧ answer.2
    = Z.of_nat
        (length (filter (λ c, Checkout.user_id c = user_id) (checkouts d)))
  ∧ StronglySorted
      (λ x y, Checkout.checkout_date (Listing.h_checkout y)
              ≤ Checkout.checkout_date (Listing.h_checkout x))
      answer.1.
Proof.
  intros (Hbooks & _ & Href). simpl.
  unfold Listing.select_history.
  set (date := λ r : Checkout.t * Book.t, Checkout.checkout_date r.1).
  set (rows := filter (λ r : Checkout.t * Book.t,
                         Checkout.user_id r.1 = user_id)
                 (Homepage.join (checkouts d) (books d))).
  assert (fst <$> rows
          = filter (λ c, Checkout.user_id c = user_id) (checkouts d))
    as Hrows.
  { unfold rows. etransitivity;
      [exact (fmap_filter_fst (λ c, Checkout.user_id c = user_id) _)|].
    by rewrite join_one_book. }
  split; [|split].
  - rewrite <- list_fmap_compose, <- Hrows.
    change (Listing.h_checkout ∘ Listing.to_history)
      with (@fst Checkout.t Book.t).
    by rewrite order_by_desc_perm.
  - rewrite <- Hrows, length_fmap. f_equal.
    apply Permutation_length, order_by_desc_perm.
  - eapply StronglySorted_fmap; [|apply (order_by_desc_sorted date rows)].
    by intros x y.
Qed.

Lemma history_complete_witness :
  Listing.h_checkout
  <$> (Listing.get_user_checkout_history 1 orwell_reader).1
  ≡ₚ filter (λ c, Checkout.user_id c = 1) (checkouts orwell_reader)
  ∧ (Listing.get_user_checkout_history 1 orwell_reader).2
    = Z.of_nat
        (length (filter (λ c, Checkout.user_id c = 1)
                   (checkouts orwell_reader)))
  ∧ StronglySorted
      (λ x y, Checkout.checkout_date (Listing.h_checkout y)
              ≤ Checkout.checkout_date (Listing.h_checkout x))
      (Listing.get_user_checkout_history 1 orwell_reader).1.
Proof.
  apply (history_complete 1 orwell_reader).
  split; [|split].
  - apply (bool_decide_unpack _). vm_compute. exact I.
  - apply (bool_decide_unpack _). vm_compute. exact I.
  - intros c Hc. simpl in Hc.
    apply elem_of_cons in Hc as [->|Hc];
      [apply (bool_decide_unpack _); vm_compute; exact I|].
    apply list_elem_of_singleton in Hc as ->.
    apply (bool_decide_unpack _). vm_compute. exact I.
Defined.

(** X16.  [get_checkouts] answers only rows that pass its two filters,
    and when [is_returned] is a 0/1 flag the answers for [active=true]
    and [active=false] split the unfiltered answer: their counts add up
    to the count without the [active] argument. *)
Theorem get_checkouts_filters (user_id : option Z) (d : db) :
  (∀ c, c ∈ checkouts d →
        Checkout.is_returned c = 0 ∨ Checkout.is_returned c = 1) →
  (∀ a row, row ∈ (Listing.get_checkouts user_id a d).1 →
     Listing.where_user user_id (Listing.checkout row)
     ∧ Listing.where_active a (Listing.checkout row)
     ∧ Listing.checkout row ∈ checkouts d)
  ∧ (Listing.get_checkouts user_id Listing.ActiveOther d).2
    = (Listing.get_checkouts user_id Listing.ActiveTrue d).2
      + (Listing.get_checkouts user_id Listing.ActiveFalse d).2.
Proof.
  intros Hflag. split.
  - intros a row Hrow. simpl in Hrow.
    apply list_elem_of_fmap in Hrow as (r & -> & Hr).
    unfold Listing.select_checkouts in Hr.
    apply elem_of_order_by_desc, list_elem_of_filter in Hr as [[Hu Ha] Hr].
    apply elem_of_join in Hr as [Hc _]. by simpl.
  - simpl. unfold Listing.select_checkouts.
    rewrite !(Permutation_length (order_by_desc_perm _ _)).
    assert (∀ r, r ∈ Homepage.join (checkouts d) (books d) →
                 Checkout.is_returned r.1 = 0 ∨ Checkout.is_returned r.1 = 1)
      as Hrows.
    { intros r Hr. apply elem_of_join in Hr as [Hc _]. by apply Hflag. }
    rewrite <- Nat2Z.inj_add. f_equal.
    apply length_filter_split. intros r Hr.
    specialize (Hrows r Hr). simpl. split; [|lia]. intuition.
Qed.

Lemma get_checkouts_filters_witness :
  (Listing.get_checkouts (Some 1) Listing.ActiveOther orwell_reader).2
  = (Listing.get_checkouts (Some 1) Listing.ActiveTrue orwell_reader).2
    + (Listing.get_checkouts (Some 1) Listing.ActiveFalse orwell_reader).2.
Proof.
  apply (get_checkouts_filters (Some 1) orwell_reader).
  intros c Hc. simpl in Hc.
  apply elem_of_cons in Hc as [->|Hc]; [by right|].
  apply list_elem_of_singleton in Hc as ->. by right.
Defined.

(** X17.  A checkout that succeeded can be read back: [get_checkout] on
    the id it answered finds the new row, not yet returned, with the
    requested book and user, the due date of the answer, and the title,
    author and image of the book. *)
Theorem checkout_then_get_checkout (now : datetime) (cts : timestamp)
    (book_id user_id : Z) (d : db) (u : User.t) (book : Book.t) :
  select_user user_id d = Some u →
  select_book book_id d = Some book →
  Book.is_booked book ≠ Some 1 →
  let res :=
    Checkouts.checkout_book now cts
      (Some (Checkouts.mk_request (Some book_id) (Some user_id))) d in
  ∃ cid due,
    res.1 = Checkouts.Created cid book_id user_id due
    ∧ Listing.get_checkout cid res.2
      = Some (Listing.mk_listed
                (Checkout.mk cid book_id user_id cts None due 0)
                (Book.title book) (Book.author book) (Book.image_url book)).
Proof.
  intros Hu Hb Hfree. cbv zeta.
  rewrite (checkout_book_success now cts book_id user_id d u book Hu Hb Hfree).
  set (due := strftime (now + timedelta 7)).
  set (cid := next_rowid (seq_checkouts d)
                (Checkout.checkout_id <$> checkouts d)).
  set (row := Checkout.mk cid book_id user_id cts None due 0).
  exists cid, due. split; [reflexivity|]. cbn [snd].
  unfold Listing.get_checkout. cbn [checkouts books].
  set (books' := update_books book_id
                   (Checkouts.set_checked_out user_id due) (books d)).
  unfold Homepage.join. rewrite bind_app, filter_app.
  rewrite (filter_none _ (checkouts d ≫= _)).
  - rewrite bind_cons.
    change (@mbind list _ _ _ ?f []) with (@nil (Checkout.t * Book.t)).
    rewrite app_nil_r, app_nil_l.
    rewrite filter_all by (apply Forall_fmap, Forall_true; done).
    assert (head (filter (λ b, Book.book_id b = Checkout.book_id row) books')
            = Some (Checkouts.set_checked_out user_id due book)) as Hhead.
    { pose proof (select_book_update book_id book_id
                    (Checkouts.set_checked_out user_id due) d (users d)
                    (checkouts d) 0 ltac:(done)) as Hsel.
      unfold select_book in Hsel at 1. simpl in Hsel.
      unfold books'. simpl. rewrite Hsel, Hb. simpl.
      destruct (select_book_key _ _ _ Hb) as [_ Hk].
      by rewrite decide_True. }
    destruct (filter (λ b, Book.book_id b = Checkout.book_id row) books')
      as [|b0 m]; [discriminate|].
    injection Hhead as ->. reflexivity.
  - intros r Hr Hid. apply list_elem_of_bind in Hr as (c & Hr & Hc).
    apply list_elem_of_fmap in Hr as (b0 & -> & _). simpl in Hid.
    assert (Checkout.checkout_id c < cid) as Hlt.
    { apply next_rowid_gt. by apply list_elem_of_fmap_2. }
    lia.
Qed.

Lemma checkout_then_get_checkout_witness :
  ∃ cid due,
    (Checkouts.checkout_book (100 * day * usec) (100 * day)
       (Some (Checkouts.mk_request (Some 1) (Some 1))) library).1
    = Checkouts.Created cid 1 1 due
    ∧ Listing.get_checkout cid
        (Checkouts.checkout_book (100 * day * usec) (100 * day)
           (Some (Checkouts.mk_request (Some 1) (Some 1))) library).2
      = Some (Listing.mk_listed
                (Checkout.mk cid 1 1 (100 * day) None due 0)
                (Book.title book_1984) (Book.author book_1984)
                (Book.image_url book_1984)).
Proof.
  apply (checkout_then_get_checkout (100 * day * usec) (100 * day) 1 1
           library alice book_1984).
  - reflexivity.
  - reflexivity.
  - discriminate.
Defined.

(** ** Accounts *)

Lemma NoDup_fmap_inj_on {A K} (key : A → K) (l : list A) (x y : A) :
  NoDup (key <$> l) → x ∈ l → y ∈ l → key x = key y → x = y.
Proof.
  induction l as [|z l IH]; intros Hnd Hx Hy Hk; [inversion Hx|].
  rewrite fmap_cons in Hnd. apply NoDup_cons in Hnd as [Hz Hnd].
  apply elem_of_cons in Hx as [->|Hx], Hy as [->|Hy]; auto.
  - exfalso. apply Hz. rewrite Hk. by apply list_elem_of_fmap_2.
  - exfalso. apply Hz. rewrite <- Hk. by apply list_elem_of_fmap_2.
Qed.

Lemma set_credentials_names (uid : Z) (n p : string) (us : list User.t) :
  NoDup (User.user_id <$> us) → NoDup (User.username <$> us) →
  n ∉ User.username <$> filter (λ u, User.user_id u ≠ uid) us →
  NoDup (User.username
         <$> ((λ u, if decide (User.user_id u = uid)
                    then Accounts.set_credentials n p u else u) <$> us)).
Proof.
  set (f := λ u, if decide (User.user_id u = uid)
                 then Accounts.set_credentials n p u else u).
  induction us as [|x us IH]; intros Hids Hnames Hfree; [constructor|].
  rewrite !fmap_cons in *.
  apply NoDup_cons in Hids as [Hxid Hids].
  apply NoDup_cons in Hnames as [Hxname Hnames].
  rewrite filter_cons in Hfree.
  assert (∀ y, y ∈ f <$> us →
               User.username y = n ∨ y ∈ us) as Hcases.
  { intros y (y0 & -> & Hy0)%list_elem_of_fmap. unfold f.
    destruct (decide (User.user_id y0 = uid)); [by left|by right]. }
  apply NoDup_cons. split.
  - intros (y & Hy & Hin)%list_elem_of_fmap.
    unfold f at 1 in Hy.
    destruct (decide (User.user_id x = uid)) as [Hx|Hx]; simpl in Hy.
    + apply list_elem_of_fmap in Hin as (y0 & -> & Hy0). unfold f in Hy.
      destruct (decide (User.user_id y0 = uid)) as [Hy0id|Hy0id].
      * apply Hxid. rewrite Hx, <- Hy0id. by apply list_elem_of_fmap_2.
      * rewrite decide_False in Hfree by (by intros ?).
        apply Hfree. rewrite Hy. apply list_elem_of_fmap_2.
        by apply list_elem_of_filter.
    + rewrite decide_True, fmap_cons in Hfree by done.
      destruct (Hcases y Hin) as [Hn|Hyin].
      * apply Hfree, elem_of_cons. left. congruence.
      * apply Hxname. rewrite Hy. by apply list_elem_of_fmap_2.
  - apply IH; auto.
    destruct (decide (User.user_id x ≠ uid)); [|done].
    rewrite fmap_cons in Hfree. intros Hn. apply Hfree. by right.
Qed.

(** X18.  Registering, updating and deleting users keep user ids and
    usernames unique. *)
Theorem accounts_stay_unique (cts : timestamp)
    (data : option Accounts.credentials) (uid seq : Z) (d : db) :
  accounts_ok d →
  accounts_ok (Accounts.register_user cts data (d, seq)).2.1
  ∧ accounts_ok (Accounts.update_user uid data d).2
  ∧ accounts_ok (Users.delete_user uid d).2.
Proof.
  intros [Hids Hnames]. split; [|split].
  - unfold Accounts.register_user.
    destruct data as [[[[n|]|] [[p|]|]]|]; simpl; try done.
    destruct (decide (n ∈ User.username <$> users d)) as [|Hfree];
      [done|].
    split; simpl; rewrite fmap_app; apply NoDup_app.
    + split; [done|]. split; [|apply NoDup_singleton].
      intros x Hx Hnew. apply list_elem_of_singleton in Hnew.
      apply (next_rowid_gt seq) in Hx. simpl in Hnew. lia.
    + split; [done|]. split; [|apply NoDup_singleton].
      intros x Hx Hnew. apply list_elem_of_singleton in Hnew.
      simpl in Hnew. by subst.
  - unfold Accounts.update_user.
    destruct data as [[[[n|]|] [[p|]|]]|]; simpl; try done;
      destruct (select_user uid d); try done.
    destruct (decide (n ∈ User.username
                          <$> filter (λ u, User.user_id u ≠ uid) (users d)))
      as [|Hfree]; [done|].
    split; simpl.
    + rewrite <- list_fmap_compose.
      erewrite list_fmap_ext; [exact Hids|].
      intros i u _. simpl. by destruct (decide (User.user_id u = uid)).
    + by apply set_credentials_names.
  - unfold Users.delete_user. destruct (select_user uid d); [|done].
    split; simpl.
    + eapply sublist_NoDup; [exact Hids|].
      apply fmap_sublist, sublist_filter.
    + eapply sublist_NoDup; [exact Hnames|].
      apply fmap_sublist, sublist_filter.
Qed.

Lemma library_accounts_ok : accounts_ok library.
Proof.
  split; apply (bool_decide_unpack _); vm_compute; exact I.
Qed.

Lemma accounts_stay_unique_witness :
  accounts_ok
    (Accounts.register_user 0
       (Some (Accounts.mk_credentials (Some (Some "carol"))
                (Some (Some "pass3")))) (library, 2)).2.1
  ∧ accounts_ok
      (Accounts.update_user 1
         (Some (Accounts.mk_credentials (Some (Some "carol"))
                  (Some (Some "pass3")))) library).2
  ∧ accounts_ok (Users.delete_user 1 library).2.
Proof.
  apply (accounts_stay_unique 0 _ 1 2 library). exact library_accounts_ok.
Defined.

(** X19.  A registration with a username that is not taken succeeds, and
    a login with the same username and password then answers 200 with
    the user id that the registration answered. *)
Theorem register_then_login (cts : timestamp) (n p : string) (seq : Z)
    (d : db) :
  n ∉ User.username <$> users d →
  let data :=
    Some (Accounts.mk_credentials (Some (Some n)) (Some (Some p))) in
  let res := Accounts.register_user cts data (d, seq) in
  ∃ uid,
    res.1 = Accounts.Registered uid n
    ∧ (uid ∉ User.user_id <$> users d)
    ∧ seq < uid
    ∧ Accounts.login_user data res.2.1 = Accounts.LoggedIn uid n.
Proof.
  intros Hfree. cbv zeta. unfold Accounts.register_user. simpl.
  rewrite decide_False by done. simpl.
  eexists. split; [reflexivity|]. split; [|split].
  - intros Hin. apply (next_rowid_gt seq) in Hin. lia.
  - unfold next_rowid. lia.
  - unfold Accounts.login_user. simpl. rewrite filter_app.
    rewrite filter_none.
    + rewrite filter_cons_True by done. reflexivity.
    + intros u Hu [[= Hname] _]. apply Hfree. rewrite <- Hname.
      by apply list_elem_of_fmap_2.
Qed.

Lemma register_then_login_witness :
  ∃ uid,
    (Accounts.register_user 0
       (Some (Accounts.mk_credentials (Some (Some "carol"))
                (Some (Some "pass3")))) (library, 2)).1
    = Accounts.Registered uid "carol"
    ∧ (uid ∉ User.user_id <$> users library)
    ∧ 2 < uid
    ∧ Accounts.login_user
        (Some (Accounts.mk_credentials (Some (Some "carol"))
                 (Some (Some "pass3"))))
        (Accounts.register_user 0
           (Some (Accounts.mk_credentials (Some (Some "carol"))
                    (Some (Some "pass3")))) (library, 2)).2.1
      = Accounts.LoggedIn uid "carol".
Proof.
  apply (register_then_login 0 "carol" "pass3" 2 library).
  apply (bool_decide_unpack _). vm_compute. exact I.
Defined.

Lemma register_user_registered_inv (cts : timestamp)
    (data : option Accounts.credentials) (s s' : db * Z) (uid : Z)
    (n : string) :
  Accounts.register_user cts data s = (Accounts.Registered uid n, s') →
  uid = next_rowid s.2 (User.user_id <$> users s.1) ∧ s'.2 = uid.
Proof.
  unfold Accounts.register_user.
  destruct data as [[[[n0|]|] [[p|]|]]|]; simpl; try discriminate.
  destruct (decide (n0 ∈ User.username <$> users s.1)); [discriminate|].
  by intros [= <- <- <-].
Qed.

(** X20.  User ids are never handed out twice: if a registration
    answered id [uid1], then after any deletions of users a later
    successful registration answers a strictly larger id. *)
Theorem user_ids_never_reused (cts1 cts2 : timestamp)
    (data1 data2 : option Accounts.credentials) (s s1 s2 : db * Z)
    (uid1 uid2 : Z) (n1 n2 : string) (deleted : list Z) :
  Accounts.register_user cts1 data1 s = (Accounts.Registered uid1 n1, s1) →
  Accounts.register_user cts2 data2
    (foldl (λ d u, (Users.delete_user u d).2) s1.1 deleted, s1.2)
  = (Accounts.Registered uid2 n2, s2) →
  uid1 < uid2.
Proof.
  intros H1 H2.
  apply register_user_registered_inv in H1 as [_ Hseq].
  apply register_user_registered_inv in H2 as [-> _].
  simpl. rewrite Hseq. unfold next_rowid. lia.
Qed.

Lemma user_ids_never_reused_witness : 3 < 4.
Proof.
  set (carol := Some (Accounts.mk_credentials (Some (Some "carol"))
                        (Some (Some "pass3")))).
  set (dave := Some (Accounts.mk_credentials (Some (Some "dave"))
                       (Some (Some "pass4")))).
  set (s1 := (Accounts.register_user 0 carol (library, 2)).2).
  apply (user_ids_never_reused 0 0 carol dave (library, 2) s1
           (Accounts.register_user 0 dave
              (foldl (λ d u, (Users.delete_user u d).2) s1.1 [3], s1.2)).2
           3 4 "carol" "dave" [3]).
  - reflexivity.
  - reflexivity.
Defined.

(** X21.  With unique usernames, deleting a user closes the account: a
    login with the deleted user's username answers 401 whatever the
    password. *)
Theorem login_after_delete (uid : Z) (d : db) (u : User.t)
    (password : option string) :
  accounts_ok d →
  select_user uid d = Some u →
  Accounts.login_user
    (Some (Accounts.mk_credentials (Some (Some (User.username u)))
             (Some password)))
    (Users.delete_user uid d).2
  = Accounts.Unauthorized "Invalid username or password".
Proof.
  intros [_ Hnames] Hu. unfold Users.delete_user. rewrite Hu.
  unfold Accounts.login_user. simpl.
  rewrite filter_none; [reflexivity|].
  intros x Hx [[= Hname] _].
  apply list_elem_of_filter in Hx as [Hxid Hx].
  unfold select_user in Hu. apply head_Some_elem_of in Hu.
  apply list_elem_of_filter in Hu as [Huid Hu].
  assert (x = u) as -> by
      (by apply (NoDup_fmap_inj_on User.username (users d))).
  done.
Qed.

Lemma login_after_delete_witness :
  Accounts.login_user
    (Some (Accounts.mk_credentials (Some (Some (User.username alice)))
             (Some (Some "pass1"))))
    (Users.delete_user 1 library).2
  = Accounts.Unauthorized "Invalid username or password".
Proof.
  apply (login_after_delete 1 library alice (Some "pass1")).
  - exact library_accounts_ok.
  - reflexivity.
Defined.

(** X22.  With unique ids and usernames, after a successful update of a
    user's credentials a login with the new username and password
    answers 200 with the id of the updated user. *)
Theorem update_then_login (uid : Z) (n p : string) (d : db) (u : User.t) :
  accounts_ok d →
  select_user uid d = Some u →
  n ∉ User.username <$> filter (λ u, User.user_id u ≠ uid) (users d) →
  let data :=
    Some (Accounts.mk_credentials (Some (Some n)) (Some (Some p))) in
  (Accounts.update_user uid data d).1 = Accounts.UserUpdated uid n
  ∧ Accounts.login_user data (Accounts.update_user uid data d).2
    = Accounts.LoggedIn uid n.
Proof.
  intros _ Hu Hfree. cbv zeta. unfold Accounts.update_user. simpl.
  rewrite Hu. rewrite decide_False by done. simpl.
  split; [reflexivity|]. unfold Accounts.login_user. simpl.
  set (f := λ u0, if decide (User.user_id u0 = uid)
                  then Accounts.set_credentials n p u0 else u0).
  set (hit := λ u0 : User.t, Some (User.username u0) = Some n
                             ∧ Some (User.password u0) = Some p).
  unfold select_user in Hu. apply head_Some_elem_of in Hu.
  apply list_elem_of_filter in Hu as [Huid Hu].
  assert (f u ∈ filter hit (f <$> users d)) as Hin.
  { apply list_elem_of_filter. split; [|by apply list_elem_of_fmap_2].
    unfold f, hit. by rewrite decide_True. }
  destruct (filter hit (f <$> users d)) as [|x m] eqn:Hm;
    [inversion Hin|].
  assert (x ∈ filter hit (f <$> users d)) as Hx by (rewrite Hm; by left).
  apply list_elem_of_filter in Hx as [[[= Hname] _] Hx].
  apply list_elem_of_fmap in Hx as (x0 & -> & Hx0).
  unfold f in *. simpl.
  destruct (decide (User.user_id x0 = uid)) as [Hid|Hid].
  - simpl. by rewrite Hid.
  - exfalso. apply Hfree. rewrite <- Hname.
    apply list_elem_of_fmap_2. by apply list_elem_of_filter.
Qed.

Lemma update_then_login_witness :
  (Accounts.update_user 1
     (Some (Accounts.mk_credentials (Some (Some "alicia"))
              (Some (Some "secret")))) library).1
  = Accounts.UserUpdated 1 "alicia"
  ∧ Accounts.login_user
      (Some (Accounts.mk_credentials (Some (Some "alicia"))
               (Some (Some "secret"))))
      (Accounts.update_user 1
         (Some (Accounts.mk_credentials (Some (Some "alicia"))
                  (Some (Some "secret")))) library).2
    = Accounts.LoggedIn 1 "alicia".
Proof.
  apply (update_then_login 1 "alicia" "secret" library alice).
  - exact library_accounts_ok.
  - reflexivity.
  - apply (bool_decide_unpack _). vm_compute. exact I.
Defined.

(** ** Book updates *)

(** X23.  A PATCH with at least one of the three fields on an existing
    book answers the patched row; reading the book back gives the same
    row, in which every supplied field has the supplied value and every
    other column its old value, and no book with another id changes. *)
Theorem update_book_read_back (bid : Z) (data : Books.patch) (d : db)
    (book : Book.t) :
  select_book bid d = Some book →
  (Books.patch_is_booked data ≠ None
   ∨ Books.patch_booked_by_user_id data ≠ None
   ∨ Books.patch_due_date data ≠ None) →
  let res := Books.update_book bid (Some data) d in
  res.1 = Books.Updated (Some (Books.apply_patch data book))
  ∧ select_book bid res.2 = Some (Books.apply_patch data book)
  ∧ catalog_entry (Books.apply_patch data book) = catalog_entry book
  ∧ (∀ v, Books.patch_is_booked data = Some v →
          Book.is_booked (Books.apply_patch data book) = v)
  ∧ (Books.patch_is_booked data = None →
     Book.is_booked (Books.apply_patch data book) = Book.is_booked book)
  ∧ (∀ k, k ≠ bid → select_book k res.2 = select_book k d).
Proof.
  intros Hb Hsome. cbv zeta.
  destruct (select_book_key _ _ _ Hb) as [_ Hk].
  assert (select_book bid
            (mkdb (users d)
               (update_books bid (Books.apply_patch data) (books d))
               (checkouts d) (seq_checkouts d))
          = Some (Books.apply_patch data book)) as Hsel.
  { rewrite select_book_update, Hb by done. simpl. by rewrite decide_True. }
  assert (∀ k, k ≠ bid →
            select_book k
              (mkdb (users d)
                 (update_books bid (Books.apply_patch data) (books d))
                 (checkouts d) (seq_checkouts d))
            = select_book k d) as Hother.
  { intros k Hne. rewrite select_book_update by done.
    destruct (select_book k d) as [b0|] eqn:Hb0; [|done]. simpl.
    destruct (select_book_key _ _ _ Hb0) as [_ Hk0].
    rewrite decide_False by congruence. done. }
  assert (Books.update_book bid (Some data) d
          = (Books.Updated
               (select_book bid
                  (mkdb (users d)
                     (update_books bid (Books.apply_patch data) (books d))
                     (checkouts d) (seq_checkouts d))),
             mkdb (users d)
               (update_books bid (Books.apply_patch data) (books d))
               (checkouts d) (seq_checkouts d))) as ->.
  { unfold Books.update_book. rewrite Hb.
    destruct (Books.patch_is_booked data) eqn:H1,
      (Books.patch_booked_by_user_id data) eqn:H2,
      (Books.patch_due_date data) eqn:H3; try reflexivity.
    exfalso. destruct Hsome as [H|[H|H]]; by apply H. }
  cbn [fst snd]. rewrite Hsel.
  split; [done|]. split; [done|]. split; [done|].
  split; [|split; [|exact Hother]].
  - intros v Hv. unfold Books.apply_patch. simpl. by rewrite Hv.
  - intros Hv. unfold Books.apply_patch. simpl. by rewrite Hv.
Qed.

Lemma update_book_read_back_witness :
  select_book 1
    (Books.update_book 1
       (Some (Books.mk_patch (Some (Some 1)) (Some (Some 2)) None))
       library).2
  = Some (Books.apply_patch
            (Books.mk_patch (Some (Some 1)) (Some (Some 2)) None) book_1984).
Proof.
  apply (update_book_read_back 1
           (Books.mk_patch (Some (Some 1)) (Some (Some 2)) None)
           library book_1984).
  - reflexivity.
  - left. discriminate.
Defined.

(** ** Filter options *)

Lemma elem_of_insert_asc (x y : string) (l : list string) :
  y ∈ Filters.insert_asc x l ↔ y = x ∨ y ∈ l.
Proof.
  induction l as [|z l IH]; simpl.
  - rewrite list_elem_of_singleton. split; [auto|].
    intros [->|Hin]; [done|inversion Hin].
  - destruct (String.ltb z x).
    + rewrite !elem_of_cons, IH. tauto.
    + rewrite !elem_of_cons. tauto.
Qed.

Lemma order_by_text_perm (l : list string) : Filters.order_by_text l ≡ₚ l.
Proof.
  unfold Filters.order_by_text. induction l as [|x l IH]; simpl; [done|].
  rewrite <- IH at 2. generalize (foldr Filters.insert_asc [] l) as m.
  clear. intros m. induction m as [|y m IH]; simpl; [done|].
  destruct (String.ltb y x); [|done].
  rewrite IH. apply Permutation_swap.
Qed.

Lemma ltb_false_leb (x y : string) :
  String.ltb y x = false → String.leb x y = true.
Proof.
  unfold String.ltb, String.leb. rewrite (String.compare_antisym x y).
  by destruct (String.compare y x).
Qed.

Lemma ltb_true_leb (x y : string) :
  String.ltb y x = true → String.leb y x = true.
Proof.
  unfold String.ltb, String.leb. by destruct (String.compare y x).
Qed.

Lemma insert_asc_sorted (x : string) (l : list string) :
  Sorted (λ a b, String.leb a b = true) l →
  Sorted (λ a b, String.leb a b = true) (Filters.insert_asc x l).
Proof.
  induction l as [|y l IH]; intros Hs; simpl.
  - repeat constructor.
  - destruct (String.ltb y x) eqn:Hyx.
    + apply Sorted_inv in Hs as [Hs Hhd]. constructor; [by apply IH|].
      destruct l as [|z l]; simpl.
      * constructor. by apply ltb_true_leb.
      * destruct (String.ltb z x); constructor.
        -- by inversion Hhd.
        -- by apply ltb_true_leb.
    + constructor; [done|]. constructor. by apply ltb_false_leb.
Qed.

Lemma order_by_text_sorted (l : list string) :
  Sorted (λ a b, String.leb a b = true) (Filters.order_by_text l).
Proof.
  unfold Filters.order_by_text. induction l as [|x l IH]; simpl.
  - constructor.
  - by apply insert_asc_sorted.
Qed.

Lemma Sorted_take {A} (R : relation A) (n : nat) (l : list A) :
  Sorted R l → Sorted R (take n l).
Proof.
  revert n. induction l as [|x l IH]; intros n Hs; [by destruct n|].
  destruct n as [|n]; [constructor|]. simpl.
  apply Sorted_inv in Hs as [Hs Hhd]. constructor; [by apply IH|].
  destruct l as [|y l]; [destruct n; constructor|].
  destruct n; constructor. by inversion Hhd.
Qed.

(** X24.  The filter options never repeat an entry.  The years are
    exactly the non-null publication years of the catalog, newest first;
    the genres are exactly its non-null genres, in ascending order; the
    authors are at most 100 authors of catalog books in ascending order,
    and all of them when the catalog has no more than 100 authors. *)
Theorem filter_options_complete (d : db) :
  let o := Filters.get_filter_options d in
  (NoDup (Filters.years o)
   ∧ (∀ y, y ∈ Filters.years o ↔
           ∃ b, b ∈ books d ∧ Book.year_published b = Some y)
   ∧ StronglySorted (λ a b, b ≤ a) (Filters.years o))
  ∧ (NoDup (Filters.genres o)
     ∧ (∀ g, g ∈ Filters.genres o ↔
             ∃ b, b ∈ books d ∧ Book.genre b = Some g)
     ∧ Sorted (λ a b, String.leb a b = true) (Filters.genres o))
  ∧ (NoDup (Filters.authors o)
     ∧ (length (Filters.authors o) ≤ 100)%nat
     ∧ (∀ a, a ∈ Filters.authors o →
             ∃ b, b ∈ books d ∧ Book.author b = a)
     ∧ Sorted (λ a b, String.leb a b = true) (Filters.authors o)
     ∧ ((length (distinct (Book.author <$> books d)) ≤ 100)%nat →
        ∀ b, b ∈ books d → Book.author b ∈ Filters.authors o)).
Proof.
  simpl. split; [|split].
  - split; [|split].
    + rewrite order_by_desc_perm. apply distinct_NoDup.
    + intros y. rewrite elem_of_order_by_desc, elem_of_distinct.
      apply list_elem_of_omap.
    + apply (order_by_desc_sorted id).
  - split; [|split].
    + rewrite order_by_text_perm. apply distinct_NoDup.
    + intros g. rewrite order_by_text_perm, elem_of_distinct.
      apply list_elem_of_omap.
    + apply order_by_text_sorted.
  - split; [|split; [|split; [|split]]].
    + eapply sublist_NoDup; [|apply sublist_take].
      rewrite order_by_text_perm. apply distinct_NoDup.
    + rewrite length_take. lia.
    + intros a Ha. apply subseteq_take in Ha.
      rewrite order_by_text_perm in Ha.
      apply elem_of_distinct, list_elem_of_fmap in Ha as (b & -> & Hb).
      eauto.
    + apply Sorted_take, order_by_text_sorted.
    + intros Hlen b Hb. rewrite take_ge.
      * rewrite order_by_text_perm. apply elem_of_distinct.
        by apply list_elem_of_fmap_2.
      * by rewrite (Permutation_length (order_by_text_perm _)).
Qed.
